(** * Internal transfer system: the ledger store and its HTTP boundary

    A shallow embedding of
    - [migrations/0001_init.sql]  (tables [accounts] and [transactions]),
    - package [store]             ([CreateAccount], [GetAccount], [Transfer]),
    - package [model]             (request types and their [Validate]),
    - package [api]               (handlers [CreateAccount], [GetAccount],
                                   [CreateTransaction]).

    Modelling conventions.
    - Account identifiers ([int64], [BIGINT]) are integers [Z]; the code only
      compares them.
    - A [decimal.Decimal] is an arbitrary-precision decimal: an integer
      mantissa and a number of fractional digits, with exact [Add], [Sub] and
      comparisons.  The two [NUMERIC(30,10)] columns hold integer numbers of
      1e-10 units: a value written to them is rounded to ten fractional
      digits, ties away from zero, and the constraints are evaluated on the
      rounded value.  A value too large for the columns is one of the faults
      below.
    - The database is one connection seen sequentially: a committed state, and
      while a transaction is open a staged copy that [Commit] installs and
      [Rollback] discards; once the transaction is over, [Rollback] is
      answered by the driver and nothing is sent.  The constraints of the
      schema (primary key, [CHECK (balance >= 0)], [CHECK (amount > 0)]) are
      evaluated by the statements that write.  Every other way a statement
      can fail (connection loss, expired context, ...) is decided by a fault
      oracle [faults], one answer per statement of the code.
    - Each statement sent to the database is appended to a trace of events,
      which is how lock order and "no storage operation" are observed.
    - JSON decoding, logging and routing are not modelled: a handler takes
      the decoded request, or [None] when decoding fails. *)

From Stdlib Require Import ZArith String List Lia.
From stdpp Require Import gmap.

Local Open Scope Z_scope.

(** ** Decimal values ([decimal.Decimal]) *)

Module decimal.

(** An integer times a power of ten; every such value is [mant] times
    1e-(10 + [fine]) for some [fine].  The values the tables hold have
    [fine = 0]: [mant] is then the number of 1e-10 units. *)
Record Decimal := mkDecimal {
  mant : Z;
  fine : nat
}.

(** [decimal.NewFromString] of a [NUMERIC(30,10)] printed as text. *)
Definition of_units (u : Z) : Decimal := mkDecimal u 0.

(** [decimal.Zero] *)
Definition Zero : Decimal := of_units 0.

Definition pow10 (n : nat) : Z := 10 ^ Z.of_nat n.

(** The two mantissas brought to the finer of the two scales. *)
Definition aligned (a b : Decimal) : Z * Z * nat :=
  let f := Nat.max (fine a) (fine b) in
  (mant a * pow10 (f - fine a), mant b * pow10 (f - fine b), f).

(** [a.Add(b)] *)
Definition Add (a b : Decimal) : Decimal :=
  let '(x, y, f) := aligned a b in mkDecimal (x + y) f.

(** [a.Sub(b)] *)
Definition Sub (a b : Decimal) : Decimal :=
  let '(x, y, f) := aligned a b in mkDecimal (x - y) f.

(** [a.LessThan(b)] *)
Definition LessThan (a b : Decimal) : bool :=
  let '(x, y, _) := aligned a b in x <? y.

(** [a.LessThanOrEqual(b)] *)
Definition LessThanOrEqual (a b : Decimal) : bool :=
  let '(x, y, _) := aligned a b in x <=? y.

(** [a.GreaterThan(b)] *)
Definition GreaterThan (a b : Decimal) : bool :=
  let '(x, y, _) := aligned a b in y <? x.

(** [a.IsNegative()] *)
Definition IsNegative (a : Decimal) : bool := mant a <? 0.

(** [d] is exactly [a] units of 1e-10: it has no digit after the tenth. *)
Definition is_units (d : Decimal) (a : Z) : Prop :=
  mant d = a * pow10 (fine d).

(** The value a [NUMERIC(30,10)] column keeps of a decimal written to it,
    in 1e-10 units: rounded to ten fractional digits, ties away from zero. *)
Definition numeric_10 (d : Decimal) : Z :=
  let p := pow10 (fine d) in
  if 0 <=? mant d then (2 * mant d + p) / (2 * p)
  else - ((2 * - mant d + p) / (2 * p)).

End decimal.

(** ** The persisted layout ([migrations/0001_init.sql]) *)

Module schema.

(** A row of [transactions]; [id] is the position in the log and
    [created_at] is not observed by the code.  [amount] is in 1e-10 units. *)
Record TransactionRow := mkTransactionRow {
  source_account_id : Z;
  destination_account_id : Z;
  amount : Z;
  status : string;
  error_message : option string
}.

(** [accounts] is keyed by its primary key [account_id] and holds balances
    in 1e-10 units; [transactions] is an append-only list, oldest first. *)
Record DB := mkDB {
  accounts : gmap Z Z;
  transactions : list TransactionRow
}.

Definition empty : DB := mkDB ∅ [].

(** [CHECK (balance >= 0)] *)
Definition check_balance (b : Z) : bool := 0 <=? b.

(** [CHECK (amount > 0)] *)
Definition check_amount (a : Z) : bool := 0 <? a.

End schema.

(** ** The driver ([pgx]) as the store uses it *)

Module pgx.
Import decimal schema.

(** Errors a statement can return. *)
Inductive pgerr :=
| ErrNoRows          (* Scan on an empty result *)
| UniqueViolation    (* duplicate primary key *)
| CheckViolation     (* a CHECK constraint rejected the row *)
| ErrTxClosed        (* statement on a transaction that is over *)
| Fault.             (* any other failure: connection, deadline, ... *)

(** The statements the store issues; the fault oracle answers per statement. *)
Inductive Op :=
| OpBegin
| OpSelect (id : Z)
| OpSelectForUpdate (id : Z)
| OpInsertAccount
| OpUpdate (id : Z)
| OpInsertTransaction
| OpCommit.

(** The arguments of an INSERT INTO transactions, as the store sends them. *)
Record InsertValues := mkInsertValues {
  v_source : Z;
  v_destination : Z;
  v_amount : Decimal;
  v_status : string;
  v_error : option string
}.

(** The row the table keeps of them. *)
Definition stored_row (v : InsertValues) : TransactionRow :=
  mkTransactionRow (v_source v) (v_destination v) (numeric_10 (v_amount v))
    (v_status v) (v_error v).

(** What reaches the database, in order, with the arguments as sent. *)
Inductive Event :=
| EvBegin
| EvSelect (id : Z)
| EvSelectForUpdate (id : Z)
| EvInsertAccount (id : Z) (bal : Decimal)
| EvUpdate (bal : Decimal) (id : Z)
| EvInsertTransaction (v : InsertValues)
| EvCommit
| EvRollback.

(** The pool with at most one open transaction. *)
Record Conn := mkConn {
  committed : DB;
  staged : option DB;
  trace : list Event
}.

Definition connect (db : DB) : Conn := mkConn db None [].

Definition emit (e : Event) (c : Conn) : Conn :=
  mkConn (committed c) (staged c) (trace c ++ [e]).

Section Statements.
Variable faults : Op -> bool.

(** [pool.Begin] *)
Definition Begin (c : Conn) : (pgerr + unit) * Conn :=
  let c := emit EvBegin c in
  if faults OpBegin then (inl Fault, c)
  else (inr tt, mkConn (committed c) (Some (committed c)) (trace c)).

(** [tx.Commit] *)
Definition Commit (c : Conn) : (pgerr + unit) * Conn :=
  let c := emit EvCommit c in
  match staged c with
  | None => (inl ErrTxClosed, c)
  | Some w =>
      if faults OpCommit then (inl Fault, mkConn (committed c) None (trace c))
      else (inr tt, mkConn w None (trace c))
  end.

(** [tx.Rollback]: on a transaction that is over the driver answers
    [ErrTxClosed] itself and nothing is sent. *)
Definition Rollback (c : Conn) : (pgerr + unit) * Conn :=
  match staged c with
  | None => (inl ErrTxClosed, c)
  | Some _ =>
      (inr tt, mkConn (committed c) None (trace c ++ [EvRollback]))
  end.

(** [tx.QueryRow(SELECT balance::text FROM accounts
                 WHERE account_id = $1 FOR UPDATE).Scan]: the balance of the
    row, in 1e-10 units. *)
Definition QueryRow_balance_for_update (id : Z) (c : Conn)
  : (pgerr + Z) * Conn :=
  let c := emit (EvSelectForUpdate id) c in
  match staged c with
  | None => (inl ErrTxClosed, c)
  | Some w =>
      if faults (OpSelectForUpdate id) then (inl Fault, c)
      else match accounts w !! id with
           | Some b => (inr b, c)
           | None => (inl ErrNoRows, c)
           end
  end.

(** [tx.Exec(UPDATE accounts SET balance = $1 WHERE account_id = $2)]: the
    row keeps the rounded value, if that passes the CHECK. *)
Definition Exec_update_balance (bal : Decimal) (id : Z) (c : Conn)
  : (pgerr + unit) * Conn :=
  let c := emit (EvUpdate bal id) c in
  match staged c with
  | None => (inl ErrTxClosed, c)
  | Some w =>
      if faults (OpUpdate id) then (inl Fault, c)
      else match accounts w !! id with
           | None => (inr tt, c)
           | Some _ =>
               if check_balance (numeric_10 bal)
               then (inr tt,
                     mkConn (committed c)
                       (Some (mkDB (<[id := numeric_10 bal]> (accounts w))
                                   (transactions w)))
                       (trace c))
               else (inl CheckViolation, c)
           end
  end.

(** [tx.Exec(INSERT INTO transactions (...) VALUES (...))]: the row keeps
    the rounded amount, if that passes the CHECK. *)
Definition Exec_insert_transaction (v : InsertValues) (c : Conn)
  : (pgerr + unit) * Conn :=
  let c := emit (EvInsertTransaction v) c in
  match staged c with
  | None => (inl ErrTxClosed, c)
  | Some w =>
      if faults OpInsertTransaction then (inl Fault, c)
      else if check_amount (amount (stored_row v))
      then (inr tt,
            mkConn (committed c)
              (Some (mkDB (accounts w) (transactions w ++ [stored_row v])))
              (trace c))
      else (inl CheckViolation, c)
  end.

(** [pool.Exec(INSERT INTO accounts (account_id, balance) VALUES ($1, $2))],
    a statement of its own, committed when it returns: the row keeps the
    rounded balance, if that passes the CHECK and the key is free. *)
Definition Exec_insert_account (id : Z) (bal : Decimal) (c : Conn)
  : (pgerr + unit) * Conn :=
  let c := emit (EvInsertAccount id bal) c in
  if faults OpInsertAccount then (inl Fault, c)
  else if negb (check_balance (numeric_10 bal)) then (inl CheckViolation, c)
  else match accounts (committed c) !! id with
       | Some _ => (inl UniqueViolation, c)
       | None =>
           (inr tt,
            mkConn (mkDB (<[id := numeric_10 bal]> (accounts (committed c)))
                         (transactions (committed c)))
                   (staged c) (trace c))
       end.

(** [pool.QueryRow(SELECT balance::text FROM accounts
                   WHERE account_id = $1).Scan] *)
Definition QueryRow_balance (id : Z) (c : Conn) : (pgerr + Z) * Conn :=
  let c := emit (EvSelect id) c in
  if faults (OpSelect id) then (inl Fault, c)
  else match accounts (committed c) !! id with
       | Some b => (inr b, c)
       | None => (inl ErrNoRows, c)
       end.

End Statements.

(** The oracle under which nothing but the schema's constraints fails. *)
Definition no_faults : Op -> bool := fun _ => false.

End pgx.


(** ** The store (package [store]) *)

Module store.
Import decimal schema pgx.

(** Go [error] values the store returns: its two sentinels, and the results
    of [fmt.Errorf] with the format, the integer arguments, and the driver
    error wrapped by [%w] if any. *)
Inductive error :=
| ErrInsufficientFunds
| ErrAccountNotFound
| Errorf (format : string) (args : list Z) (wrapped : option pgerr).

(** [errors.Is(err, target)] for a sentinel [target]: the chain of an
    [Errorf] value continues into the driver error only, which is neither
    sentinel. *)
Definition errors_Is (err target : error) : bool :=
  match err, target with
  | ErrInsufficientFunds, ErrInsufficientFunds => true
  | ErrAccountNotFound, ErrAccountNotFound => true
  | _, _ => false
  end.

(** Statements of a method body: they thread the connection and stop at the
    first [return err]. *)
Definition M (A : Type) : Type := Conn -> (error + A) * Conn.

Definition ret {A} (a : A) : M A := fun c => (inr a, c).

Definition throw {A} (e : error) : M A := fun c => (inl e, c).

Definition bind {A B} (m : M A) (k : A -> M B) : M B :=
  fun c => match m c with
           | (inl e, c') => (inl e, c')
           | (inr a, c') => k a c'
           end.

(** [if err != nil { return h(err) }] *)
Definition or_return {A} (p : Conn -> (pgerr + A) * Conn)
    (h : pgerr -> error) : M A :=
  fun c => match p c with
           | (inl e, c') => (inl (h e), c')
           | (inr a, c') => (inr a, c')
           end.

(** [_, _ = stmt]: the result is dropped. *)
Definition ignore {A} (p : Conn -> (pgerr + A) * Conn) : M unit :=
  fun c => (inr tt, snd (p c)).

(** [defer func() { _ = tx.Rollback(ctx) }()] around the rest of a body. *)
Definition defer_rollback {A} (body : M A) : M A :=
  fun c => let (r, c') := body c in (r, snd (Rollback c')).

Notation "x <- m ;; k" := (bind m (fun x => k))
  (at level 100, m at next level, right associativity).
Notation "m ;;; k" := (bind m (fun _ => k))
  (at level 100, right associativity).

(** [sort.Slice(ids, func(i, j int) bool { return ids[i] < ids[j] })]:
    insertion of each element before the first one that is not smaller. *)
Fixpoint sort_insert (x : Z) (l : list Z) : list Z :=
  match l with
  | [] => [x]
  | y :: l' => if y <? x then y :: sort_insert x l' else x :: y :: l'
  end.

Fixpoint sort_Slice (l : list Z) : list Z :=
  match l with
  | [] => []
  | x :: l' => sort_insert x (sort_Slice l')
  end.

Definition failed_row (srcID dstID : Z) (amount : Decimal) (msg : string)
  : InsertValues :=
  mkInsertValues srcID dstID amount "failed" (Some msg).

Definition succeeded_row (srcID dstID : Z) (amount : Decimal) : InsertValues :=
  mkInsertValues srcID dstID amount "succeeded" None.

Section Methods.
Variable faults : Op -> bool.

(** [func (s *Store) CreateAccount(ctx, accountID, initial) error] *)
Definition CreateAccount (accountID : Z) (initial : Decimal) : M unit :=
  or_return (Exec_insert_account faults accountID initial)
    (fun err => Errorf "create account: %w" [] (Some err)).

(** [func (s *Store) GetAccount(ctx, accountID) (decimal.Decimal, error)] *)
Definition GetAccount (accountID : Z) : M Decimal :=
  balStr <- or_return (QueryRow_balance faults accountID)
              (fun err => match err with
                          | ErrNoRows => ErrAccountNotFound
                          | _ => Errorf "get account: %w" [] (Some err)
                          end) ;;
  ret (of_units balStr).

(** The loop [for _, id := range ids] of [Transfer], filling [balances]. *)
Fixpoint fetch_balances (srcID dstID : Z) (amount : Decimal) (ids : list Z)
    (balances : gmap Z Decimal) : M (gmap Z Decimal) :=
  match ids with
  | [] => ret balances
  | id :: rest =>
      fun c =>
        match QueryRow_balance_for_update faults id c with
        | (inl ErrNoRows, c') =>
            (ignore (Exec_insert_transaction faults
                       (failed_row srcID dstID amount "account not found")) ;;;
             throw ErrAccountNotFound) c'
        | (inl err, c') =>
            (inl (Errorf "select balance for account %d: %w" [id] (Some err)),
             c')
        | (inr balStr, c') =>
            fetch_balances srcID dstID amount rest
              (<[id := of_units balStr]> balances) c'
        end
  end.

(** [Transfer] once both balances are known: the funds check, the two
    updates, the log row and the commit. *)
Definition Transfer_apply (srcID dstID : Z) (amount srcBal dstBal : Decimal)
  : M unit :=
  if LessThan srcBal amount then
    ignore (Exec_insert_transaction faults
              (failed_row srcID dstID amount "insufficient funds")) ;;;
    throw ErrInsufficientFunds
  else
    let newSrc := Sub srcBal amount in
    let newDst := Add dstBal amount in
    or_return (Exec_update_balance faults newSrc srcID)
      (fun err => Errorf "update src balance: %w" [] (Some err)) ;;;
    or_return (Exec_update_balance faults newDst dstID)
      (fun err => Errorf "update dst balance: %w" [] (Some err)) ;;;
    or_return (Exec_insert_transaction faults
                 (succeeded_row srcID dstID amount))
      (fun err => Errorf "insert transaction log: %w" [] (Some err)) ;;;
    or_return (Commit faults)
      (fun err => Errorf "commit: %w" [] (Some err)).

(** [Transfer] after [pool.Begin], the part the deferred rollback covers. *)
Definition Transfer_tx (srcID dstID : Z) (amount : Decimal) : M unit :=
  balances <- fetch_balances srcID dstID amount
                (sort_Slice [srcID; dstID]) ∅ ;;
  match balances !! srcID, balances !! dstID with
  | Some srcBal, Some dstBal =>
      Transfer_apply srcID dstID amount srcBal dstBal
  | _, _ =>
      ignore (Exec_insert_transaction faults
                (failed_row srcID dstID amount "account not found")) ;;;
      throw ErrAccountNotFound
  end.

(** [func (s *Store) Transfer(ctx, srcID, dstID, amount) error] *)
Definition Transfer (srcID dstID : Z) (amount : Decimal) : M unit :=
  if LessThanOrEqual amount Zero
  then throw (Errorf "amount must be positive" [] None)
  else if srcID =? dstID then ret tt
  else
    or_return (Begin faults)
      (fun err => Errorf "begin tx: %w" [] (Some err)) ;;;
    defer_rollback (Transfer_tx srcID dstID amount).

End Methods.

(** A call on a quiescent database: the error returned ([None] for [nil]),
    the committed state afterwards, and the statements issued. *)
Definition run {A} (m : M A) (db : DB) : (error + A) * DB * list Event :=
  let (r, c) := m (connect db) in (r, committed c, trace c).

Definition returned {A} (m : M A) (db : DB) : error + A := fst (fst (run m db)).
Definition state_after {A} (m : M A) (db : DB) : DB := snd (fst (run m db)).
Definition statements {A} (m : M A) (db : DB) : list Event := snd (run m db).

End store.


(** ** Request types and validation (package [model]) *)

Module model.
Import decimal.

Inductive verror :=
| ErrInvalidAccountID
| ErrInvalidInitialBalance
| ErrInvalidAmount
| ErrSameSourceDestination.

(** [err.Error()] *)
Definition Error (e : verror) : string :=
  match e with
  | ErrInvalidAccountID => "account_id must be non-zero"
  | ErrInvalidInitialBalance => "initial_balance must be >= 0"
  | ErrInvalidAmount => "amount must be > 0"
  | ErrSameSourceDestination => "source and destination must differ"
  end.

(** Incoming payload for POST /accounts *)
Record CreateAccountRequest := mkCreateAccountRequest {
  AccountID : Z;
  InitialBalance : Decimal
}.

(** JSON returned by GET /accounts/{id} *)
Record AccountResponse := mkAccountResponse {
  resp_AccountID : Z;
  Balance : Decimal
}.

(** Incoming payload for POST /transactions *)
Record TransactionRequest := mkTransactionRequest {
  SourceAccountID : Z;
  DestinationAccountID : Z;
  Amount : Decimal
}.

(** [func (r *CreateAccountRequest) Validate() error] *)
Definition CreateAccountRequest_Validate (r : CreateAccountRequest)
  : option verror :=
  if AccountID r =? 0 then Some ErrInvalidAccountID
  else if IsNegative (InitialBalance r) then Some ErrInvalidInitialBalance
  else None.

(** [func (r *TransactionRequest) Validate() error] *)
Definition TransactionRequest_Validate (r : TransactionRequest)
  : option verror :=
  if (SourceAccountID r =? 0) || (DestinationAccountID r =? 0)
  then Some ErrInvalidAccountID
  else if SourceAccountID r =? DestinationAccountID r
  then Some ErrSameSourceDestination
  else if negb (GreaterThan (Amount r) Zero) then Some ErrInvalidAmount
  else None.

End model.

(** ** The HTTP handlers ([internal/api/handler.go]) *)

Module api.
Import decimal model.

(** [type StoreAPI interface], over the state [S] an implementation keeps. *)
Class StoreAPI (S : Type) := {
  store_CreateAccount : Z -> Decimal -> S -> (store.error + unit) * S;
  store_GetAccount : Z -> S -> (store.error + Decimal) * S;
  store_Transfer : Z -> Z -> Decimal -> S -> (store.error + unit) * S
}.

(** What a handler writes: the status code and the body. *)
Inductive Body :=
| NoBody
| Text (msg : string)
| JSON (v : AccountResponse).

Record Response := mkResponse {
  StatusCode : Z;
  body : Body
}.

Definition StatusOK : Z := 200.
Definition StatusCreated : Z := 201.
Definition StatusBadRequest : Z := 400.
Definition StatusNotFound : Z := 404.
Definition StatusConflict : Z := 409.
Definition StatusInternalServerError : Z := 500.

(** [http.Error(w, msg, code)] *)
Definition http_Error (msg : string) (code : Z) : Response :=
  mkResponse code (Text msg).

Section Handlers.
Context {S : Type} {s : StoreAPI S}.

(** [func (a *API) CreateAccount(w, r)]; the decoded body is [None] when
    [json.Decode] fails. *)
Definition CreateAccount (decoded : option CreateAccountRequest) (st : S)
  : Response * S :=
  match decoded with
  | None => (http_Error "invalid JSON" StatusBadRequest, st)
  | Some req =>
      match CreateAccountRequest_Validate req with
      | Some err => (http_Error (Error err) StatusBadRequest, st)
      | None =>
          match store_CreateAccount (AccountID req) (InitialBalance req) st with
          | (inl _, st') =>
              (http_Error "failed to create account" StatusInternalServerError,
               st')
          | (inr _, st') => (mkResponse StatusCreated NoBody, st')
          end
      end
  end.

(** [func (a *API) GetAccount(w, r)]; the path variable is [None] when
    [strconv.ParseInt] fails. *)
Definition GetAccount (parsed : option Z) (st : S) : Response * S :=
  match parsed with
  | None => (http_Error "invalid account id" StatusBadRequest, st)
  | Some id =>
      match store_GetAccount id st with
      | (inl err, st') =>
          if store.errors_Is err store.ErrAccountNotFound
          then (http_Error "account not found" StatusNotFound, st')
          else (http_Error "internal error" StatusInternalServerError, st')
      | (inr bal, st') =>
          (mkResponse StatusOK (JSON (mkAccountResponse id bal)), st')
      end
  end.

(** [func (a *API) CreateTransaction(w, r)] *)
Definition CreateTransaction (decoded : option TransactionRequest) (st : S)
  : Response * S :=
  match decoded with
  | None => (http_Error "invalid JSON" StatusBadRequest, st)
  | Some req =>
      match TransactionRequest_Validate req with
      | Some err => (http_Error (Error err) StatusBadRequest, st)
      | None =>
          match store_Transfer (SourceAccountID req)
                  (DestinationAccountID req) (Amount req) st with
          | (inl err, st') =>
              if store.errors_Is err store.ErrAccountNotFound
              then (http_Error "account not found" StatusNotFound, st')
              else if store.errors_Is err store.ErrInsufficientFunds
              then (http_Error "insufficient funds" StatusConflict, st')
              else (http_Error "internal error" StatusInternalServerError, st')
          | (inr _, st') => (mkResponse StatusOK NoBody, st')
          end
      end
  end.

End Handlers.

(** [*store.Store] implements [StoreAPI] on the connection. *)
Definition Store (faults : pgx.Op -> bool) : StoreAPI pgx.Conn := {|
  store_CreateAccount := store.CreateAccount faults;
  store_GetAccount := store.GetAccount faults;
  store_Transfer := store.Transfer faults
|}.

(** An implementation that only records the calls it receives, in the manner
    of the handlers' test double. *)
Inductive Call :=
| CallCreateAccount (accountID : Z) (initial : Decimal)
| CallGetAccount (accountID : Z)
| CallTransfer (srcID dstID : Z) (amount : Decimal).

Definition Recorder : StoreAPI (list Call) := {|
  store_CreateAccount := fun id bal log =>
    (inr tt, log ++ [CallCreateAccount id bal]);
  store_GetAccount := fun id log => (inr Zero, log ++ [CallGetAccount id]);
  store_Transfer := fun src dst amt log =>
    (inr tt, log ++ [CallTransfer src dst amt])
|}.

End api.


(** ** Vocabulary of the ledger properties *)

Module ledger.
Import decimal schema pgx store.

(** The sum of all balances. *)
Definition total_balance (db : DB) : Z :=
  map_fold (fun _ b acc => b + acc) 0 (accounts db).

(** No account holds a negative balance. *)
Definition balances_nonneg (db : DB) : Prop :=
  map_Forall (fun _ b => 0 <= b) (accounts db).

(** A call fails before any statement reaches the database. *)
Definition rejected_by_engine {A} (m : M A) (db : DB) : Prop :=
  (exists e, returned m db = inl e) /\ statements m db = [].

(** One request to the store, with the oracle of the call. *)
Inductive Request :=
| ReqCreateAccount (faults : Op -> bool) (accountID : Z) (initial : Decimal)
| ReqTransfer (faults : Op -> bool) (srcID dstID : Z) (amount : Decimal).

Definition serve (r : Request) (db : DB) : (error + unit) * DB :=
  match r with
  | ReqCreateAccount f id initial =>
      (returned (CreateAccount f id initial) db,
       state_after (CreateAccount f id initial) db)
  | ReqTransfer f src dst amt =>
      (returned (Transfer f src dst amt) db,
       state_after (Transfer f src dst amt) db)
  end.

(** The state after a sequence of requests, whatever each one returns. *)
Fixpoint serve_all (rs : list Request) (db : DB) : DB :=
  match rs with
  | [] => db
  | r :: rs' => serve_all rs' (snd (serve r db))
  end.

(** Every request of the sequence is a transfer that returns [nil]. *)
Fixpoint all_transfers_succeed (rs : list Request) (db : DB) : bool :=
  match rs with
  | [] => true
  | r :: rs' =>
      match r, fst (serve r db) with
      | ReqTransfer _ _ _ _, inr _ =>
          all_transfers_succeed rs' (snd (serve r db))
      | _, _ => false
      end
  end.

(** A computation that relates every connection to the one it leaves. *)
Definition stable (R : Conn -> Conn -> Prop) {A} (m : M A) : Prop :=
  forall c, R c (snd (m c)).

(** The committed state is the same. *)
Definition same_committed (c c' : Conn) : Prop := committed c' = committed c.

(** The trace has only grown. *)
Definition trace_grows (c c' : Conn) : Prop :=
  exists t, trace c' = trace c ++ t.

(** A computation that changes the committed state only if it succeeds. *)
Definition atomic {A} (m : M A) : Prop :=
  forall c e, fst (m c) = inl e -> committed (snd (m c)) = committed c.

(** The rows of the audit log that a call added. *)
Definition appended (before after : DB) : list TransactionRow :=
  skipn (length (transactions before)) (transactions after).

End ledger.

(** ** The scenario of the specification *)

Module scenario.
Import decimal schema pgx store ledger.

(** The decimal with two fractional digits that is [n] hundredths. *)
Definition cents (n : Z) : Decimal := of_units (n * 100000000).

(** 0.00000000005, half of the last digit the columns keep. *)
Definition half_unit : Decimal := mkDecimal 5 1.

(** Account 100 holds 1000.00 and account 200 holds 500.00. *)
Definition opening : DB :=
  serve_all [ReqCreateAccount no_faults 100 (cents 100000);
             ReqCreateAccount no_faults 200 (cents 50000)] schema.empty.

(** After 100.50 has moved from 100 to 200. *)
Definition after_first : DB :=
  serve_all [ReqTransfer no_faults 100 200 (cents 10050)] opening.

(** The connection is lost when the commit is sent. *)
Definition commit_fails (op : Op) : bool :=
  match op with OpCommit => true | _ => false end.

(** The connection is lost when the account row is sent. *)
Definition insert_account_fails (op : Op) : bool :=
  match op with OpInsertAccount => true | _ => false end.

End scenario.

(** ** Process configuration (package [main], [loadConfig]) *)

Module config.

(** [time.Second], in nanoseconds, the unit of [time.Duration]. *)
Definition Second : Z := 1000000000.

(** Multiplication of [time.Duration] is [int64] multiplication. *)
Definition wrap64 (z : Z) : Z := (z + 2 ^ 63) mod 2 ^ 64 - 2 ^ 63.

Record Config := mkConfig {
  PostgresDSN : string;
  Port : string;
  ReqTimeout : Z
}.

Section Environment.
(** [os.Getenv], after [godotenv.Load] has run: the empty string for a
    variable that is not set. *)
Variable Getenv : string -> string.
(** [strconv.Atoi]: [None] when it returns an error. *)
Variable Atoi : string -> option Z.

(** [func loadConfig()], returning the error message or the [Config]. *)
Definition loadConfig : string + Config :=
  let dsn := Getenv "POSTGRES_DSN" in
  if String.eqb dsn EmptyString then inl "POSTGRES_DSN is required"%string
  else
    let port := Getenv "PORT" in
    let port := if String.eqb port EmptyString then "8080"%string else port in
    let reqTimeout := 5 * Second in
    let reqTimeout :=
      let s := Getenv "REQ_TIMEOUT_SEC" in
      if negb (String.eqb s EmptyString) then
        match Atoi s with
        | Some v => if 0 <? v then wrap64 (v * Second) else reqTimeout
        | None => reqTimeout
        end
      else reqTimeout in
    inr (mkConfig dsn port reqTimeout).

End Environment.

End config.

(** * Properties *)

Import decimal schema pgx store ledger.

(** ** Decimals *)

Lemma pow10_pos n : 0 < pow10 n.
Proof. unfold pow10. apply Z.pow_pos_nonneg; lia. Qed.

Lemma pow10_0 : pow10 0 = 1.
Proof. reflexivity. Qed.

Lemma aligned_Zero_r d : aligned d Zero = (mant d, 0, fine d).
Proof.
  unfold aligned, Zero, of_units. simpl.
  rewrite Nat.max_0_r, Nat.sub_diag, pow10_0. f_equal. f_equal. lia.
Qed.

Lemma aligned_of_units_l u d :
  aligned (of_units u) d = (u * pow10 (fine d), mant d, fine d).
Proof.
  unfold aligned, of_units. simpl.
  rewrite Nat.sub_0_r, Nat.sub_diag, pow10_0. f_equal. f_equal. lia.
Qed.

Lemma LessThanOrEqual_Zero d : LessThanOrEqual d Zero = (mant d <=? 0).
Proof. unfold LessThanOrEqual. rewrite aligned_Zero_r. reflexivity. Qed.

Lemma GreaterThan_Zero d : GreaterThan d Zero = (0 <? mant d).
Proof. unfold GreaterThan. rewrite aligned_Zero_r. reflexivity. Qed.

Lemma LessThan_of_units u d :
  LessThan (of_units u) d = (u * pow10 (fine d) <? mant d).
Proof. unfold LessThan. rewrite aligned_of_units_l. reflexivity. Qed.

Lemma Sub_of_units u d :
  Sub (of_units u) d = mkDecimal (u * pow10 (fine d) - mant d) (fine d).
Proof. unfold Sub. rewrite aligned_of_units_l. reflexivity. Qed.

Lemma Add_of_units u d :
  Add (of_units u) d = mkDecimal (u * pow10 (fine d) + mant d) (fine d).
Proof. unfold Add. rewrite aligned_of_units_l. reflexivity. Qed.

(** Rounding keeps the sign. *)
Lemma numeric_10_nonneg d : 0 <= mant d -> 0 <= numeric_10 d.
Proof.
  intros H. unfold numeric_10. pose proof (pow10_pos (fine d)).
  destruct (Z.leb_spec 0 (mant d)); [|lia].
  apply Z.div_pos; lia.
Qed.

Lemma numeric_10_nonpos d : mant d <= 0 -> numeric_10 d <= 0.
Proof.
  intros H. unfold numeric_10. pose proof (pow10_pos (fine d)).
  destruct (Z.leb_spec 0 (mant d)).
  - replace (mant d) with 0 by lia. rewrite Z.div_small; lia.
  - assert (0 <= (2 * - mant d + pow10 (fine d)) / (2 * pow10 (fine d)))
      by (apply Z.div_pos; lia).
    lia.
Qed.

(** A value without digits after the tenth is kept as it is. *)
Lemma numeric_10_units d a : is_units d a -> numeric_10 d = a.
Proof.
  unfold is_units, numeric_10. intros ->. pose proof (pow10_pos (fine d)) as Hp.
  set (p := pow10 (fine d)) in *.
  destruct (Z.leb_spec 0 (a * p)) as [Hs|Hs].
  - assert (0 <= a) by nia.
    symmetry. apply (Z.div_unique_pos _ _ a p); lia.
  - assert (a < 0) by nia.
    assert (E : (2 * - (a * p) + p) / (2 * p) = - a)
      by (symmetry; apply (Z.div_unique_pos _ _ (- a) p); lia).
    rewrite E. lia.
Qed.

(** The rounded value is negative exactly from half a unit of the tenth
    digit below zero on. *)
Lemma numeric_10_negative_iff d :
  numeric_10 d < 0 <-> 2 * mant d + pow10 (fine d) <= 0.
Proof.
  unfold numeric_10. pose proof (pow10_pos (fine d)) as Hp.
  set (p := pow10 (fine d)) in *.
  destruct (Z.leb_spec 0 (mant d)) as [Hs|Hs].
  - assert (0 <= (2 * mant d + p) / (2 * p)) by (apply Z.div_pos; lia). lia.
  - split; intros H.
    + destruct (Z.le_gt_cases (2 * mant d + p) 0) as [|Hgt]; [assumption|].
      rewrite Z.div_small in H by lia. lia.
    + assert (1 <= (2 * - mant d + p) / (2 * p))
        by (apply Z.div_le_lower_bound; lia).
      lia.
Qed.

Lemma is_units_of_units a : is_units (of_units a) a.
Proof. unfold is_units, of_units. simpl. rewrite pow10_0. lia. Qed.

Lemma is_units_positive d a : is_units d a -> (0 < mant d <-> 0 < a).
Proof.
  unfold is_units. intros ->. pose proof (pow10_pos (fine d)). split; nia.
Qed.

Lemma LessThan_units u d a :
  is_units d a -> LessThan (of_units u) d = (u <? a).
Proof.
  intros Hd. rewrite LessThan_of_units, Hd.
  pose proof (pow10_pos (fine d)).
  destruct (Z.ltb_spec u a), (Z.ltb_spec (u * pow10 (fine d)) (a * pow10 (fine d)));
    try reflexivity; nia.
Qed.

Lemma Sub_units u d a :
  is_units d a -> is_units (Sub (of_units u) d) (u - a).
Proof.
  intros Hd. rewrite Sub_of_units. unfold is_units. simpl. rewrite Hd. lia.
Qed.

Lemma Add_units u d a :
  is_units d a -> is_units (Add (of_units u) d) (u + a).
Proof.
  intros Hd. rewrite Add_of_units. unfold is_units. simpl. rewrite Hd. lia.
Qed.

(** Enough funds leave a difference that is not negative. *)
Lemma Sub_nonneg u d :
  LessThan (of_units u) d = false -> 0 <= mant (Sub (of_units u) d).
Proof.
  rewrite LessThan_of_units, Sub_of_units. simpl.
  destruct (Z.ltb_spec (u * pow10 (fine d)) (mant d)); [discriminate|lia].
Qed.

Lemma Add_nonneg u d :
  0 <= u -> 0 <= mant d -> 0 <= mant (Add (of_units u) d).
Proof.
  intros Hu Hd. rewrite Add_of_units. simpl.
  pose proof (pow10_pos (fine d)). nia.
Qed.

(** ** Stepping through the statements *)

Lemma sort_Slice_pair (a b : Z) :
  sort_Slice [a; b] = if b <? a then [b; a] else [a; b].
Proof. reflexivity. Qed.

Lemma sort_Slice_min_max (a b : Z) :
  a <> b -> sort_Slice [a; b] = [Z.min a b; Z.max a b].
Proof.
  intros Hne. rewrite sort_Slice_pair.
  destruct (Z.ltb_spec b a).
  - rewrite Z.min_r, Z.max_l by lia. reflexivity.
  - rewrite Z.min_l, Z.max_r by lia. reflexivity.
Qed.

(** *** What the statements leave alone *)

Section Stable.
Variable R : Conn -> Conn -> Prop.
Hypothesis R_refl : forall c, R c c.
Hypothesis R_trans : forall a b c, R a b -> R b c -> R a c.

Lemma stable_ret {A} (a : A) : stable R (ret a).
Proof. intros c. apply R_refl. Qed.

Lemma stable_throw {A} (e : error) : stable R (@throw A e).
Proof. intros c. apply R_refl. Qed.

Lemma stable_bind {A B} (m : M A) (k : A -> M B) :
  stable R m -> (forall a, stable R (k a)) -> stable R (bind m k).
Proof.
  intros Hm Hk c. unfold bind. specialize (Hm c).
  destruct (m c) as [[e|a] c']; simpl in *; [assumption|].
  eapply R_trans; [eassumption|apply Hk].
Qed.

Lemma stable_or_return {A} (p : Conn -> (pgerr + A) * Conn) h :
  (forall c, R c (snd (p c))) -> stable R (or_return p h).
Proof.
  intros Hp c. unfold or_return. specialize (Hp c).
  destruct (p c) as [[e|a] c']; assumption.
Qed.

Lemma stable_ignore {A} (p : Conn -> (pgerr + A) * Conn) :
  (forall c, R c (snd (p c))) -> stable R (ignore p).
Proof. intros Hp c. apply Hp. Qed.

Variable f : Op -> bool.
Hypothesis R_select : forall id c, R c (snd (QueryRow_balance_for_update f id c)).
Hypothesis R_insert : forall row c, R c (snd (Exec_insert_transaction f row c)).
Hypothesis R_update : forall bal id c, R c (snd (Exec_update_balance f bal id c)).

Lemma stable_record_failure src dst amt msg e :
  stable R (ignore (Exec_insert_transaction f (failed_row src dst amt msg)) ;;;
            @throw unit e).
Proof.
  apply stable_bind; [apply stable_ignore, R_insert|].
  intros _. apply stable_throw.
Qed.

Lemma stable_fetch_balances src dst amt ids balances :
  stable R (fetch_balances f src dst amt ids balances).
Proof.
  revert balances. induction ids as [|id rest IH]; intros balances c.
  - apply R_refl.
  - simpl. pose proof (R_select id c) as Hq.
    destruct (QueryRow_balance_for_update f id c) as [[err|dec] c']; simpl in Hq.
    + destruct err; try assumption.
      eapply R_trans; [eassumption|].
      apply (stable_record_failure src dst amt "account not found"
               ErrAccountNotFound c').
    + eapply R_trans; [eassumption|apply IH].
Qed.

(** [Transfer_apply] up to and without its [Commit]. *)
Lemma stable_writes src dst amt newSrc newDst (k : M unit) :
  stable R k ->
  stable R
    (or_return (Exec_update_balance f newSrc src)
       (fun err => Errorf "update src balance: %w" [] (Some err)) ;;;
     or_return (Exec_update_balance f newDst dst)
       (fun err => Errorf "update dst balance: %w" [] (Some err)) ;;;
     or_return (Exec_insert_transaction f (succeeded_row src dst amt))
       (fun err => Errorf "insert transaction log: %w" [] (Some err)) ;;;
     k).
Proof.
  intros Hk.
  apply stable_bind; [apply stable_or_return, R_update|intros _].
  apply stable_bind; [apply stable_or_return, R_update|intros _].
  apply stable_bind; [apply stable_or_return, R_insert|intros _].
  exact Hk.
Qed.

End Stable.

Lemma same_committed_refl c : same_committed c c.
Proof. reflexivity. Qed.

Lemma same_committed_trans a b c :
  same_committed a b -> same_committed b c -> same_committed a c.
Proof. unfold same_committed. congruence. Qed.

Lemma trace_grows_refl c : trace_grows c c.
Proof. exists []. symmetry. apply app_nil_r. Qed.

Lemma trace_grows_trans a b c :
  trace_grows a b -> trace_grows b c -> trace_grows a c.
Proof.
  intros [t1 H1] [t2 H2]. exists (t1 ++ t2).
  rewrite H2, H1. symmetry. apply app_assoc.
Qed.

Ltac statement_cases :=
  simpl;
  repeat match goal with
         | |- context [match ?x with _ => _ end] => destruct x; simpl
         end;
  try reflexivity.

Lemma Begin_committed f c : same_committed c (snd (Begin f c)).
Proof. unfold same_committed, Begin. statement_cases. Qed.

Lemma Rollback_committed c : same_committed c (snd (Rollback c)).
Proof. unfold same_committed, Rollback. statement_cases. Qed.

Lemma select_committed f id c :
  same_committed c (snd (QueryRow_balance_for_update f id c)).
Proof. unfold same_committed, QueryRow_balance_for_update. statement_cases. Qed.

Lemma update_committed f bal id c :
  same_committed c (snd (Exec_update_balance f bal id c)).
Proof. unfold same_committed, Exec_update_balance. statement_cases. Qed.

Lemma insert_committed f row c :
  same_committed c (snd (Exec_insert_transaction f row c)).
Proof. unfold same_committed, Exec_insert_transaction. statement_cases. Qed.

Ltac trace_cases :=
  unfold trace_grows, emit; simpl;
  repeat match goal with
         | |- context [match ?x with _ => _ end] => destruct x; simpl
         end;
  eexists; reflexivity.

Lemma Commit_trace f c : trace_grows c (snd (Commit f c)).
Proof. unfold Commit. trace_cases. Qed.

Lemma Rollback_trace c : trace_grows c (snd (Rollback c)).
Proof.
  unfold Rollback, trace_grows. destruct (staged c); simpl.
  - eexists. reflexivity.
  - exists []. symmetry. apply app_nil_r.
Qed.

Lemma select_trace f id c :
  trace_grows c (snd (QueryRow_balance_for_update f id c)).
Proof. unfold QueryRow_balance_for_update. trace_cases. Qed.

Lemma update_trace f bal id c :
  trace_grows c (snd (Exec_update_balance f bal id c)).
Proof. unfold Exec_update_balance. trace_cases. Qed.

Lemma insert_trace f row c :
  trace_grows c (snd (Exec_insert_transaction f row c)).
Proof. unfold Exec_insert_transaction. trace_cases. Qed.

(** *** Errors roll back *)

Ltac committed_side :=
  first [ exact same_committed_refl | exact same_committed_trans
        | apply insert_committed | apply select_committed
        | apply update_committed ].

Lemma stable_atomic {A} (m : M A) : stable same_committed m -> atomic m.
Proof. intros Hm c e _. apply Hm. Qed.

Lemma atomic_bind {A B} (m : M A) (k : A -> M B) :
  stable same_committed m -> (forall a, atomic (k a)) -> atomic (bind m k).
Proof.
  intros Hm Hk c e. unfold bind. specialize (Hm c). unfold same_committed in Hm.
  destruct (m c) as [[e'|a] c']; simpl in *; [intros _; assumption|].
  intros He. rewrite (Hk a c' e He). assumption.
Qed.

Lemma atomic_Commit f h : atomic (or_return (Commit f) h).
Proof.
  intros c e. unfold or_return, Commit. simpl.
  destruct (staged c); [|reflexivity].
  destruct (f OpCommit); simpl; [reflexivity|discriminate].
Qed.

Lemma atomic_defer_rollback {A} (m : M A) : atomic m -> atomic (defer_rollback m).
Proof.
  intros Hm c e. unfold defer_rollback. specialize (Hm c e).
  destruct (m c) as [r c']; simpl in *. intros He.
  rewrite Rollback_committed. auto.
Qed.

Lemma atomic_Transfer_apply f src dst amt srcBal dstBal :
  atomic (Transfer_apply f src dst amt srcBal dstBal).
Proof.
  unfold Transfer_apply. destruct (LessThan srcBal amt).
  - apply stable_atomic, stable_record_failure; committed_side.
  - cbv zeta. intros c e He.
    assert (Hsplit : forall (k : M unit), atomic k ->
      atomic
        (or_return (Exec_update_balance f (Sub srcBal amt) src)
           (fun err => Errorf "update src balance: %w" [] (Some err)) ;;;
         or_return (Exec_update_balance f (Add dstBal amt) dst)
           (fun err => Errorf "update dst balance: %w" [] (Some err)) ;;;
         or_return (Exec_insert_transaction f (succeeded_row src dst amt))
           (fun err => Errorf "insert transaction log: %w" [] (Some err)) ;;;
         k)).
    { intros k Hk.
      apply atomic_bind; [apply stable_or_return, update_committed|intros _].
      apply atomic_bind; [apply stable_or_return, update_committed|intros _].
      apply atomic_bind; [apply stable_or_return, insert_committed|intros _].
      exact Hk. }
    exact (Hsplit _ (atomic_Commit f _) c e He).
Qed.

Lemma atomic_Transfer_tx f src dst amt : atomic (Transfer_tx f src dst amt).
Proof.
  unfold Transfer_tx. apply atomic_bind.
  - apply stable_fetch_balances; committed_side.
  - intros balances.
    assert (Hnf : atomic
      (ignore (Exec_insert_transaction f
                 (failed_row src dst amt "account not found")) ;;;
       @throw unit ErrAccountNotFound)).
    { apply stable_atomic, stable_record_failure; committed_side. }
    destruct (balances !! src) as [srcBal|]; [|exact Hnf].
    destruct (balances !! dst) as [dstBal|]; [|exact Hnf].
    apply atomic_Transfer_apply.
Qed.

Lemma atomic_Transfer f src dst amt : atomic (Transfer f src dst amt).
Proof.
  unfold Transfer.
  destruct (LessThanOrEqual amt Zero);
    [apply stable_atomic, stable_throw, same_committed_refl|].
  destruct (src =? dst);
    [apply stable_atomic, stable_ret, same_committed_refl|].
  apply atomic_bind; [apply stable_or_return, Begin_committed|intros _].
  apply atomic_defer_rollback, atomic_Transfer_tx.
Qed.

(** A call that returns an error leaves the committed state as it was. *)
Lemma Transfer_error_state f src dst amt db e :
  returned (Transfer f src dst amt) db = inl e ->
  state_after (Transfer f src dst amt) db = db.
Proof.
  unfold returned, state_after, run. intros He.
  pose proof (atomic_Transfer f src dst amt (connect db) e) as Ha.
  destruct (Transfer f src dst amt (connect db)) as [r c]; simpl in *.
  apply Ha, He.
Qed.

(** *** The locked reads *)

Lemma fetch_balances_cons f src dst amt id rest balances db w t :
  fetch_balances f src dst amt (id :: rest) balances (mkConn db (Some w) t) =
  if f (OpSelectForUpdate id)
  then (inl (Errorf "select balance for account %d: %w" [id] (Some Fault)),
        mkConn db (Some w) (t ++ [EvSelectForUpdate id]))
  else match accounts w !! id with
       | Some b =>
           fetch_balances f src dst amt rest (<[id := of_units b]> balances)
             (mkConn db (Some w) (t ++ [EvSelectForUpdate id]))
       | None =>
           (inl ErrAccountNotFound,
            snd (Exec_insert_transaction f
                   (failed_row src dst amt "account not found")
                   (mkConn db (Some w) (t ++ [EvSelectForUpdate id]))))
       end.
Proof.
  simpl. unfold QueryRow_balance_for_update. simpl.
  destruct (f (OpSelectForUpdate id)); [reflexivity|].
  destruct (accounts w !! id); reflexivity.
Qed.

(** Both reads granted: the balances of the two rows reach the funds check. *)
Lemma Transfer_tx_reads f src dst amt db w t sb dbal :
  src <> dst ->
  f (OpSelectForUpdate src) = false -> f (OpSelectForUpdate dst) = false ->
  accounts w !! src = Some sb -> accounts w !! dst = Some dbal ->
  Transfer_tx f src dst amt (mkConn db (Some w) t) =
  Transfer_apply f src dst amt (of_units sb) (of_units dbal)
    (mkConn db (Some w)
       ((t ++ [EvSelectForUpdate (Z.min src dst)])
          ++ [EvSelectForUpdate (Z.max src dst)])).
Proof.
  intros Hne Hfs Hfd Hs Hd. unfold Transfer_tx, bind.
  rewrite (sort_Slice_min_max _ _ Hne).
  destruct (Z.le_ge_cases src dst).
  - rewrite Z.min_l, Z.max_r by assumption.
    rewrite fetch_balances_cons, Hfs, Hs, fetch_balances_cons, Hfd, Hd. simpl.
    rewrite lookup_insert_ne, lookup_insert_eq by congruence.
    rewrite lookup_insert_eq. reflexivity.
  - rewrite Z.min_r, Z.max_l by assumption.
    rewrite fetch_balances_cons, Hfd, Hd, fetch_balances_cons, Hfs, Hs. simpl.
    rewrite lookup_insert_eq.
    rewrite lookup_insert_ne, lookup_insert_eq by congruence. reflexivity.
Qed.

(** Unless both reads are granted the transaction returns an error. *)
Lemma Transfer_tx_success_reads f src dst amt db w t c' :
  src <> dst ->
  Transfer_tx f src dst amt (mkConn db (Some w) t) = (inr tt, c') ->
  exists sb dbal,
    f (OpSelectForUpdate src) = false /\ f (OpSelectForUpdate dst) = false /\
    accounts w !! src = Some sb /\ accounts w !! dst = Some dbal.
Proof.
  intros Hne. unfold Transfer_tx, bind.
  rewrite sort_Slice_pair.
  destruct (f (OpSelectForUpdate src)) eqn:Hfs;
    destruct (f (OpSelectForUpdate dst)) eqn:Hfd;
    destruct (accounts w !! src) as [sb|] eqn:Hs;
    destruct (accounts w !! dst) as [dbal|] eqn:Hd;
    destruct (dst <? src);
    rewrite fetch_balances_cons, ?Hfs, ?Hfd, ?Hs, ?Hd; cbv beta iota;
    try discriminate;
    rewrite fetch_balances_cons, ?Hfs, ?Hfd, ?Hs, ?Hd; cbv beta iota;
    try discriminate.
  all: intros _; eauto 10.
Qed.

(** *** The funds check and the writes *)

Lemma Transfer_apply_insufficient f src dst amt sb dbal c :
  LessThan sb amt = true ->
  Transfer_apply f src dst amt sb dbal c =
  (inl ErrInsufficientFunds,
   snd (Exec_insert_transaction f
          (failed_row src dst amt "insufficient funds") c)).
Proof. intros Hlt. unfold Transfer_apply. rewrite Hlt. reflexivity. Qed.

Lemma Transfer_apply_sufficient f src dst amt sb dbal c :
  LessThan sb amt = false ->
  fst (Transfer_apply f src dst amt sb dbal c) <> inl ErrInsufficientFunds.
Proof.
  intros Hle. unfold Transfer_apply. rewrite Hle. cbv zeta.
  unfold bind, or_return.
  repeat match goal with
         | |- context [match ?p ?c with _ => _ end] =>
             destruct (p c) as [[?|?] ?]; simpl; try discriminate
         end.
Qed.

(** The writes on rows that exist, when they all go through: what the
    three constraints have accepted and what the tables keep. *)
Lemma Transfer_apply_success f src dst amt sb dbal db w t x y c' :
  src <> dst ->
  accounts w !! src = Some x -> accounts w !! dst = Some y ->
  Transfer_apply f src dst amt sb dbal (mkConn db (Some w) t) = (inr tt, c') ->
  LessThan sb amt = false /\
  0 <= numeric_10 (Sub sb amt) /\ 0 <= numeric_10 (Add dbal amt) /\
  0 < numeric_10 amt /\
  c' = mkConn
         (mkDB (<[dst := numeric_10 (Add dbal amt)]>
                  (<[src := numeric_10 (Sub sb amt)]> (accounts w)))
               (transactions w ++ [stored_row (succeeded_row src dst amt)]))
         None
         (t ++ [EvUpdate (Sub sb amt) src; EvUpdate (Add dbal amt) dst;
                EvInsertTransaction (succeeded_row src dst amt); EvCommit]).
Proof.
  intros Hne Hx Hy. unfold Transfer_apply.
  destruct (LessThan sb amt); [discriminate|]. cbv zeta.
  unfold bind, or_return, Exec_update_balance, Exec_insert_transaction,
    Commit, check_balance, check_amount. simpl.
  destruct (f (OpUpdate src)); simpl; [discriminate|]. rewrite Hx.
  destruct (Z.leb_spec 0 (numeric_10 (Sub sb amt))); simpl; [|discriminate].
  destruct (f (OpUpdate dst)); simpl; [discriminate|].
  rewrite lookup_insert_ne, Hy by congruence.
  destruct (Z.leb_spec 0 (numeric_10 (Add dbal amt))); simpl; [|discriminate].
  destruct (f OpInsertTransaction); simpl; [discriminate|].
  destruct (Z.ltb_spec 0 (numeric_10 amt)); simpl; [|discriminate].
  destruct (f OpCommit); simpl; [discriminate|].
  intros Heq. injection Heq as <-. rewrite <- !app_assoc.
  repeat split; assumption.
Qed.

(** With no fault and the three constraints met, the writes go through. *)
Lemma Transfer_apply_run f src dst amt sb dbal db w t x y :
  (forall op, f op = false) ->
  src <> dst ->
  LessThan sb amt = false ->
  0 <= numeric_10 (Sub sb amt) -> 0 <= numeric_10 (Add dbal amt) ->
  0 < numeric_10 amt ->
  accounts w !! src = Some x -> accounts w !! dst = Some y ->
  fst (Transfer_apply f src dst amt sb dbal (mkConn db (Some w) t)) = inr tt.
Proof.
  intros Hf Hne Hle Hsrc Hdst Hamt Hx Hy. unfold Transfer_apply.
  rewrite Hle. cbv zeta.
  unfold bind, or_return, Exec_update_balance, Exec_insert_transaction,
    Commit, check_balance, check_amount. simpl.
  rewrite !Hf, Hx.
  destruct (Z.leb_spec 0 (numeric_10 (Sub sb amt))); simpl; [|lia].
  rewrite lookup_insert_ne, Hy by congruence.
  destruct (Z.leb_spec 0 (numeric_10 (Add dbal amt))); simpl; [|lia].
  destruct (Z.ltb_spec 0 (numeric_10 amt)); simpl; [|lia].
  reflexivity.
Qed.

(** *** The whole call *)

Lemma Transfer_begin f src dst amt db :
  0 < mant amt -> src <> dst ->
  Transfer f src dst amt (connect db) =
  if f OpBegin
  then (inl (Errorf "begin tx: %w" [] (Some Fault)), mkConn db None [EvBegin])
  else defer_rollback (Transfer_tx f src dst amt)
         (mkConn db (Some db) [EvBegin]).
Proof.
  intros Hamt Hne. unfold Transfer. rewrite LessThanOrEqual_Zero.
  destruct (Z.leb_spec (mant amt) 0); [lia|].
  destruct (Z.eqb_spec src dst); [congruence|].
  unfold bind, or_return, Begin, connect. simpl.
  destruct (f OpBegin); reflexivity.
Qed.

(** What a call that returns [nil] has read, what the constraints have
    accepted and what the tables keep. *)
Lemma Transfer_success f src dst amt db :
  0 < mant amt -> src <> dst ->
  returned (Transfer f src dst amt) db = inr tt ->
  exists sb dbal,
    accounts db !! src = Some sb /\ accounts db !! dst = Some dbal /\
    LessThan (of_units sb) amt = false /\
    0 <= numeric_10 (Sub (of_units sb) amt) /\
    0 <= numeric_10 (Add (of_units dbal) amt) /\
    0 < numeric_10 amt /\
    state_after (Transfer f src dst amt) db =
      mkDB (<[dst := numeric_10 (Add (of_units dbal) amt)]>
              (<[src := numeric_10 (Sub (of_units sb) amt)]> (accounts db)))
           (transactions db ++ [stored_row (succeeded_row src dst amt)]).
Proof.
  intros Hamt Hne. unfold returned, state_after, run.
  rewrite (Transfer_begin f src dst amt db Hamt Hne).
  destruct (f OpBegin); [discriminate|].
  unfold defer_rollback.
  destruct (Transfer_tx f src dst amt (mkConn db (Some db) [EvBegin]))
    as [r c'] eqn:Htx.
  simpl. intros ->.
  destruct (Transfer_tx_success_reads _ _ _ _ _ _ _ _ Hne Htx)
    as (sb & dbal & Hfs & Hfd & Hs & Hd).
  rewrite (Transfer_tx_reads f src dst amt db db _ sb dbal Hne Hfs Hfd Hs Hd)
    in Htx.
  destruct (Transfer_apply_success _ _ _ _ _ _ _ _ _ _ _ _ Hne Hs Hd Htx)
    as (Hle & Hsrc & Hdst & Hpos & ->).
  exists sb, dbal. repeat split; try assumption.
Qed.

(** With both rows read, the outcome is decided by the funds check. *)
Lemma Transfer_funds f src dst amt db sb dbal :
  0 < mant amt -> src <> dst ->
  f OpBegin = false ->
  f (OpSelectForUpdate src) = false -> f (OpSelectForUpdate dst) = false ->
  accounts db !! src = Some sb -> accounts db !! dst = Some dbal ->
  returned (Transfer f src dst amt) db =
  fst (Transfer_apply f src dst amt (of_units sb) (of_units dbal)
         (mkConn db (Some db)
            [EvBegin; EvSelectForUpdate (Z.min src dst);
             EvSelectForUpdate (Z.max src dst)])).
Proof.
  intros Hamt Hne Hb Hfs Hfd Hs Hd. unfold returned, run.
  rewrite (Transfer_begin f src dst amt db Hamt Hne), Hb.
  unfold defer_rollback.
  rewrite (Transfer_tx_reads f src dst amt db db _ sb dbal Hne Hfs Hfd Hs Hd).
  simpl.
  destruct (Transfer_apply f src dst amt (of_units sb) (of_units dbal) _)
    as [r c']. reflexivity.
Qed.

(** The same-account call and the refused amount leave the state as it is. *)
Lemma Transfer_same_account_is_noop_state f db id amt :
  0 < mant amt -> state_after (Transfer f id id amt) db = db.
Proof.
  intros Hamt. unfold state_after, run, Transfer. rewrite LessThanOrEqual_Zero.
  destruct (Z.leb_spec (mant amt) 0); [lia|]. rewrite Z.eqb_refl. reflexivity.
Qed.

Lemma Transfer_nonpositive_returns f src dst amt db :
  mant amt <= 0 ->
  returned (Transfer f src dst amt) db
    = inl (Errorf "amount must be positive" [] None).
Proof.
  intros Hle. unfold returned, run, Transfer. rewrite LessThanOrEqual_Zero.
  destruct (Z.leb_spec (mant amt) 0); [reflexivity|lia].
Qed.

(** The three ways a call can go, for proofs by cases. *)
Lemma Transfer_cases f src dst amt db :
  (exists e, returned (Transfer f src dst amt) db = inl e /\
             state_after (Transfer f src dst amt) db = db) \/
  (0 < mant amt /\ src = dst /\
   state_after (Transfer f src dst amt) db = db) \/
  (0 < mant amt /\ src <> dst /\
   returned (Transfer f src dst amt) db = inr tt).
Proof.
  destruct (returned (Transfer f src dst amt) db) as [e|[]] eqn:Hr.
  - left. exists e. split; [reflexivity|].
    apply (Transfer_error_state f src dst amt db e Hr).
  - right. destruct (Z.leb_spec (mant amt) 0) as [Hle|Hlt].
    + rewrite (Transfer_nonpositive_returns f src dst amt db Hle) in Hr.
      discriminate.
    + destruct (Z.eq_dec src dst) as [->|Hne].
      * left. repeat split; try assumption.
        apply Transfer_same_account_is_noop_state. assumption.
      * right. repeat split; assumption.
Qed.

(** *** Sums of balances *)

Lemma total_balance_insert (m : gmap Z Z) (id old new : Z) :
  m !! id = Some old ->
  map_fold (fun _ b acc => b + acc) 0 (<[id := new]> m) =
  map_fold (fun _ b acc => b + acc) 0 m - old + new.
Proof.
  intros Hid.
  assert (Hcomm : forall (m' : gmap Z Z) (j1 j2 z1 z2 y : Z),
             j1 <> j2 -> m' !! j1 = Some z1 -> m' !! j2 = Some z2 ->
             z1 + (z2 + y) = z2 + (z1 + y)) by (intros; lia).
  rewrite (map_fold_delete_L _ 0 id old m (Hcomm m) Hid).
  rewrite <- (insert_delete_eq m id new).
  rewrite (map_fold_insert_L _ 0 id new (delete id m)).
  - lia.
  - apply Hcomm.
  - apply lookup_delete_eq.
Qed.

(** What a call that returns [nil] keeps of an amount without digits after
    the tenth: exactly the difference and the sum. *)
Lemma Transfer_success_units f src dst amt a db :
  is_units amt a -> 0 < mant amt -> src <> dst ->
  returned (Transfer f src dst amt) db = inr tt ->
  exists sb dbal,
    accounts db !! src = Some sb /\ accounts db !! dst = Some dbal /\
    0 < a /\ a <= sb /\ 0 <= dbal + a /\
    state_after (Transfer f src dst amt) db =
      mkDB (<[dst := dbal + a]> (<[src := sb - a]> (accounts db)))
           (transactions db ++ [stored_row (succeeded_row src dst amt)]).
Proof.
  intros Hu Hamt Hne Hok.
  destruct (Transfer_success f src dst amt db Hamt Hne Hok)
    as (sb & dbal & Hs & Hd & Hle & Hsrc & Hdst & Hpos & ->).
  rewrite (LessThan_units sb amt a Hu) in Hle.
  rewrite (numeric_10_units _ _ (Sub_units sb amt a Hu)) in *.
  rewrite (numeric_10_units _ _ (Add_units dbal amt a Hu)) in *.
  rewrite (numeric_10_units _ _ Hu) in Hpos.
  exists sb, dbal. destruct (Z.ltb_spec sb a); [discriminate|].
  repeat split; try assumption; lia.
Qed.

Lemma Transfer_total_units f src dst amt a db :
  is_units amt a ->
  total_balance (state_after (Transfer f src dst amt) db) = total_balance db.
Proof.
  intros Hu.
  destruct (Transfer_cases f src dst amt db)
    as [(e & _ & ->)|[(_ & _ & ->)|(Hamt & Hne & Hok)]]; try reflexivity.
  destruct (Transfer_success_units f src dst amt a db Hu Hamt Hne Hok)
    as (sb & dbal & Hs & Hd & _ & _ & _ & ->).
  unfold total_balance. simpl.
  rewrite (total_balance_insert _ dst dbal)
    by (rewrite lookup_insert_ne by congruence; exact Hd).
  rewrite (total_balance_insert _ src sb) by exact Hs.
  lia.
Qed.

(** * The claims *)

Import scenario.

(** C4. A transfer whose source and destination are the same account, for a
    positive amount, returns [nil] without sending any statement to the
    database: no transaction is opened, nothing is read or written, no audit
    row is appended, and the state is unchanged. *)
Theorem Transfer_same_account_is_noop f db id amt :
  0 < mant amt ->
  returned (Transfer f id id amt) db = inr tt /\
  statements (Transfer f id id amt) db = [] /\
  state_after (Transfer f id id amt) db = db.
Proof.
  intros Hamt. unfold returned, statements, state_after, run, Transfer.
  rewrite LessThanOrEqual_Zero.
  destruct (Z.leb_spec (mant amt) 0); [lia|]. rewrite Z.eqb_refl.
  repeat split.
Qed.

Lemma Transfer_same_account_is_noop_witness :
  returned (Transfer no_faults 100 100 (cents 5000)) opening = inr tt /\
  statements (Transfer no_faults 100 100 (cents 5000)) opening = [] /\
  state_after (Transfer no_faults 100 100 (cents 5000)) opening = opening.
Proof.
  apply (Transfer_same_account_is_noop no_faults opening 100 (cents 5000)).
  reflexivity.
Defined.

(** C7. Whenever [Transfer] returns an error, whichever it is (account not
    found, insufficient funds, or a failure of any statement from [Begin] to
    [Commit]), every account holds the balance it held before the call. *)
Theorem Transfer_error_keeps_balances f db src dst amt e :
  returned (Transfer f src dst amt) db = inl e ->
  accounts (state_after (Transfer f src dst amt) db) = accounts db.
Proof.
  intros He. rewrite (Transfer_error_state f src dst amt db e He). reflexivity.
Qed.

Lemma Transfer_error_keeps_balances_witness :
  accounts (state_after (Transfer commit_fails 100 200 (cents 10050)) opening)
  = accounts opening.
Proof.
  apply (Transfer_error_keeps_balances commit_fails opening 100 200
           (cents 10050) (Errorf "commit: %w" [] (Some Fault))).
  vm_compute. reflexivity.
Defined.

(** C1 (the code departs from it). On the second scenario of the
    specification, 1000.00 from account 100 holding 899.50, the call returns
    [ErrInsufficientFunds]; the failed row was sent inside the transaction,
    no commit follows, the deferred rollback ends the transaction, and the
    committed audit log holds the one succeeded row it held before. *)
Theorem Transfer_failed_row_is_rolled_back :
  returned (Transfer no_faults 100 200 (cents 100000)) after_first
    = inl ErrInsufficientFunds /\
  statements (Transfer no_faults 100 200 (cents 100000)) after_first
    = [EvBegin; EvSelectForUpdate 100; EvSelectForUpdate 200;
       EvInsertTransaction
         (failed_row 100 200 (cents 100000) "insufficient funds");
       EvRollback] /\
  appended after_first
    (state_after (Transfer no_faults 100 200 (cents 100000)) after_first)
    = [] /\
  transactions
    (state_after (Transfer no_faults 100 200 (cents 100000)) after_first)
    = [stored_row (succeeded_row 100 200 (cents 10050))].
Proof. vm_compute. repeat split. Qed.

(** *** Conservation and non-negativity *)

(** C2 (the code departs from it). A transfer of 0.00000000005 from account
    100 (1000.00) to account 200 (500.00), with no fault, returns [nil]; the
    request passes [Validate] and the handler answers 200.  The two UPDATEs
    carry the exact difference and sum, with eleven fractional digits; each
    column rounds what it is given on its own, so the source row stays at
    1000.0000000000 and the destination row becomes 500.0000000001: the sum
    of the two balances, and of all balances, has grown by 1e-10. *)
Theorem Transfer_below_scale_creates_money :
  returned (Transfer no_faults 100 200 half_unit) opening = inr tt /\
  model.TransactionRequest_Validate
    (model.mkTransactionRequest 100 200 half_unit) = None /\
  api.StatusCode
    (fst (@api.CreateTransaction _ (api.Store no_faults)
            (Some (model.mkTransactionRequest 100 200 half_unit))
            (connect opening))) = api.StatusOK /\
  statements (Transfer no_faults 100 200 half_unit) opening
    = [EvBegin; EvSelectForUpdate 100; EvSelectForUpdate 200;
       EvUpdate (mkDecimal 99999999999995 1) 100;
       EvUpdate (mkDecimal 50000000000005 1) 200;
       EvInsertTransaction (succeeded_row 100 200 half_unit); EvCommit] /\
  accounts opening !! 100 = Some 10000000000000 /\
  accounts opening !! 200 = Some 5000000000000 /\
  accounts (state_after (Transfer no_faults 100 200 half_unit) opening) !! 100
    = Some 10000000000000 /\
  accounts (state_after (Transfer no_faults 100 200 half_unit) opening) !! 200
    = Some 5000000000001 /\
  total_balance (state_after (Transfer no_faults 100 200 half_unit) opening)
    = total_balance opening + 1.
Proof. vm_compute. repeat split. Qed.

Lemma Transfer_dom f src dst amt db :
  dom (accounts (state_after (Transfer f src dst amt) db)) = dom (accounts db).
Proof.
  destruct (Transfer_cases f src dst amt db)
    as [(e & _ & ->)|[(_ & _ & ->)|(Hamt & Hne & Hok)]]; try reflexivity.
  destruct (Transfer_success f src dst amt db Hamt Hne Hok)
    as (sb & dbal & Hs & Hd & _ & _ & _ & _ & ->).
  simpl.
  rewrite dom_insert_lookup_L
    by (rewrite lookup_insert_ne by congruence; eauto).
  apply dom_insert_lookup_L. eauto.
Qed.

Lemma CreateAccount_state f id initial db :
  state_after (CreateAccount f id initial) db = db \/
  0 <= numeric_10 initial /\ accounts db !! id = None /\
  state_after (CreateAccount f id initial) db =
    mkDB (<[id := numeric_10 initial]> (accounts db)) (transactions db).
Proof.
  unfold state_after, run, CreateAccount, or_return, Exec_insert_account,
    check_balance, connect. simpl.
  destruct (f OpInsertAccount); simpl; [left; reflexivity|].
  destruct (Z.leb_spec 0 (numeric_10 initial)); simpl; [|left; reflexivity].
  destruct (accounts db !! id) eqn:Hid; simpl; [left; reflexivity|].
  right. repeat split. assumption.
Qed.

Lemma serve_nonneg r db :
  balances_nonneg db -> balances_nonneg (snd (serve r db)).
Proof.
  intros Hdb. destruct r as [f id initial|f src dst amt]; simpl.
  - destruct (CreateAccount_state f id initial db) as [->|(Hi & _ & ->)];
      [assumption|].
    apply map_Forall_insert_2; assumption.
  - destruct (Transfer_cases f src dst amt db)
      as [(e & _ & ->)|[(_ & _ & ->)|(Hamt & Hne & Hok)]]; try assumption.
    destruct (Transfer_success f src dst amt db Hamt Hne Hok)
      as (sb & dbal & Hs & Hd & _ & Hsrc & Hdst & _ & ->).
    unfold balances_nonneg. simpl.
    apply map_Forall_insert_2; [assumption|].
    apply map_Forall_insert_2; assumption.
Qed.

(** C3. "Every balance is at least zero" is an invariant: it holds of the
    empty ledger, and of the state after any sequence of account creations
    and transfers (succeeding or failing, under any faults) applied to a
    state of which it holds. *)
Theorem balances_nonneg_invariant rs db :
  balances_nonneg db ->
  balances_nonneg schema.empty /\ balances_nonneg (serve_all rs db).
Proof.
  intros Hdb. split; [apply map_Forall_empty|].
  revert db Hdb. induction rs as [|r rs IH]; intros db Hdb; [assumption|].
  simpl. apply IH, serve_nonneg, Hdb.
Qed.

Lemma balances_nonneg_invariant_witness :
  balances_nonneg
    (serve_all [ReqCreateAccount no_faults 100 (cents 100000);
                ReqCreateAccount no_faults 300 (cents (-1));
                ReqTransfer no_faults 100 200 (cents 10050);
                ReqCreateAccount no_faults 200 (cents 50000);
                ReqTransfer no_faults 100 200 (cents 10050);
                ReqTransfer no_faults 100 200 half_unit;
                ReqTransfer commit_fails 200 100 (cents 1);
                ReqTransfer no_faults 100 200 (cents 100000)] schema.empty).
Proof.
  apply balances_nonneg_invariant. apply map_Forall_empty.
Defined.

(** *** The funds check *)

(** C5. For a positive amount and two different existing accounts, once the
    transaction has begun and both rows have been read, the call returns
    [ErrInsufficientFunds] exactly when the source balance is smaller than the
    amount; and when no statement fails, a transfer of the whole source
    balance returns [nil]. *)
Theorem Transfer_insufficient_funds_iff f db src dst amt sb dbal :
  0 < mant amt -> src <> dst ->
  accounts db !! src = Some sb -> accounts db !! dst = Some dbal ->
  f OpBegin = false ->
  f (OpSelectForUpdate src) = false -> f (OpSelectForUpdate dst) = false ->
  (returned (Transfer f src dst amt) db = inl ErrInsufficientFunds <->
   LessThan (of_units sb) amt = true) /\
  (is_units amt sb -> (forall op, f op = false) -> 0 <= dbal ->
   returned (Transfer f src dst amt) db = inr tt).
Proof.
  intros Hamt Hne Hs Hd Hb Hfs Hfd.
  rewrite (Transfer_funds f src dst amt db sb dbal Hamt Hne Hb Hfs Hfd Hs Hd).
  split; [split|].
  - intros Hr. destruct (LessThan (of_units sb) amt) eqn:Hlt; [reflexivity|].
    exfalso. revert Hr. apply Transfer_apply_sufficient. assumption.
  - intros Hlt. rewrite Transfer_apply_insufficient by assumption. reflexivity.
  - intros Hu Hf Hdst.
    assert (Hpos : 0 < sb) by (apply (is_units_positive amt sb Hu); exact Hamt).
    apply (Transfer_apply_run f src dst amt _ _ db db _ sb dbal);
      try assumption.
    + rewrite (LessThan_units sb amt sb Hu). apply Z.ltb_irrefl.
    + rewrite (numeric_10_units _ _ (Sub_units sb amt sb Hu)). lia.
    + rewrite (numeric_10_units _ _ (Add_units dbal amt sb Hu)). lia.
    + rewrite (numeric_10_units _ _ Hu). exact Hpos.
Qed.

Lemma Transfer_insufficient_funds_iff_witness :
  (returned (Transfer no_faults 100 200 (cents 100000)) opening
     = inl ErrInsufficientFunds <->
   LessThan (of_units 10000000000000) (cents 100000) = true) /\
  returned (Transfer no_faults 100 200 (cents 100000)) opening = inr tt.
Proof.
  destruct (Transfer_insufficient_funds_iff no_faults opening 100 200
              (cents 100000) 10000000000000 5000000000000) as [Hiff Hfull];
    try reflexivity; try discriminate.
  split; [exact Hiff|].
  apply Hfull; [reflexivity | reflexivity | discriminate].
Defined.

(** *** The order of the locked reads *)

Lemma bind_fetch_cons {B} f src dst amt id rest balances
    (k : gmap Z Decimal -> M B) db w t :
  bind (fetch_balances f src dst amt (id :: rest) balances) k
    (mkConn db (Some w) t) =
  if f (OpSelectForUpdate id)
  then (inl (Errorf "select balance for account %d: %w" [id] (Some Fault)),
        mkConn db (Some w) (t ++ [EvSelectForUpdate id]))
  else match accounts w !! id with
       | Some b =>
           bind (fetch_balances f src dst amt rest
                   (<[id := of_units b]> balances)) k
             (mkConn db (Some w) (t ++ [EvSelectForUpdate id]))
       | None =>
           (inl ErrAccountNotFound,
            snd (Exec_insert_transaction f
                   (failed_row src dst amt "account not found")
                   (mkConn db (Some w) (t ++ [EvSelectForUpdate id]))))
       end.
Proof.
  unfold bind at 1. rewrite fetch_balances_cons.
  destruct (f (OpSelectForUpdate id)); [reflexivity|].
  destruct (accounts w !! id); reflexivity.
Qed.

Ltac trace_side :=
  first [ exact trace_grows_refl | exact trace_grows_trans
        | apply insert_trace | apply select_trace | apply update_trace ].

Lemma trace_Transfer_apply f src dst amt sb dbal :
  stable trace_grows (Transfer_apply f src dst amt sb dbal).
Proof.
  unfold Transfer_apply. destruct (LessThan sb amt).
  - apply stable_record_failure; trace_side.
  - cbv zeta. apply stable_writes; try trace_side.
    apply stable_or_return, Commit_trace.
Qed.

Lemma trace_after_reads f src dst amt (balances : gmap Z Decimal) :
  stable trace_grows
    (match balances !! src, balances !! dst with
     | Some srcBal, Some dstBal => Transfer_apply f src dst amt srcBal dstBal
     | _, _ =>
         ignore (Exec_insert_transaction f
                   (failed_row src dst amt "account not found")) ;;;
         throw ErrAccountNotFound
     end).
Proof.
  assert (Hnf : stable trace_grows
    (ignore (Exec_insert_transaction f
               (failed_row src dst amt "account not found")) ;;;
     @throw unit ErrAccountNotFound))
    by (apply stable_record_failure; trace_side).
  destruct (balances !! src); [|exact Hnf].
  destruct (balances !! dst); [|exact Hnf].
  apply trace_Transfer_apply.
Qed.

(** The statements of a call that gets past its two upfront checks. *)
Lemma Transfer_statements_shape f src dst amt db :
  0 < mant amt -> src <> dst ->
  let lo := EvSelectForUpdate (Z.min src dst) in
  let hi := EvSelectForUpdate (Z.max src dst) in
  statements (Transfer f src dst amt) db = [EvBegin] \/
  statements (Transfer f src dst amt) db = [EvBegin; lo; EvRollback] \/
  statements (Transfer f src dst amt) db =
    [EvBegin; lo;
     EvInsertTransaction (failed_row src dst amt "account not found");
     EvRollback] \/
  f (OpSelectForUpdate (Z.min src dst)) = false /\
  is_Some (accounts db !! Z.min src dst) /\
  exists t, statements (Transfer f src dst amt) db = EvBegin :: lo :: hi :: t.
Proof.
  intros Hamt Hne lo hi. unfold statements, run.
  rewrite (Transfer_begin f src dst amt db Hamt Hne).
  destruct (f OpBegin); [left; reflexivity|right].
  unfold defer_rollback, Transfer_tx.
  rewrite (sort_Slice_min_max _ _ Hne), bind_fetch_cons.
  destruct (f (OpSelectForUpdate (Z.min src dst))); [left; reflexivity|right].
  destruct (accounts db !! Z.min src dst) as [b|] eqn:Hlo.
  2:{ left. unfold Exec_insert_transaction. simpl.
      destruct (f OpInsertTransaction); [reflexivity|].
      destruct (check_amount _); reflexivity. }
  right. split; [reflexivity|]. split; [eauto|].
  match goal with
  | |- context [bind ?m ?k ?c] =>
      assert (Hgrow : exists t,
                trace (snd (bind m k c)) = [EvBegin; lo; hi] ++ t)
  end.
  { rewrite bind_fetch_cons. simpl.
    destruct (f (OpSelectForUpdate (Z.max src dst)));
      [exists []; reflexivity|].
    destruct (accounts db !! Z.max src dst) as [b'|].
    - destruct (trace_after_reads f src dst amt
                  (<[Z.max src dst := of_units b']>
                     (<[Z.min src dst := of_units b]> ∅))
                  (mkConn db (Some db) [EvBegin; lo; hi])) as [t Ht].
      exists t. exact Ht.
    - unfold Exec_insert_transaction. simpl.
      destruct (f OpInsertTransaction); [eexists; reflexivity|].
      destruct (check_amount _); eexists; reflexivity. }
  destruct Hgrow as [t Ht].
  match goal with
  | |- context [bind ?m ?k ?c] => destruct (bind m k c) as [r c']
  end.
  simpl in Ht. destruct (Rollback_trace c') as [t' Ht'].
  exists (t ++ t'). simpl. rewrite Ht', Ht. reflexivity.
Qed.

(** C8. In a transfer between two different accounts for a positive amount,
    any locked read of the larger identifier is preceded by the locked read
    of the smaller one, which was granted on an existing row; this does not
    depend on which of the two is the source. *)
Theorem Transfer_locks_in_ascending_order f db src dst amt pre post :
  0 < mant amt -> src <> dst ->
  statements (Transfer f src dst amt) db =
    pre ++ EvSelectForUpdate (Z.max src dst) :: post ->
  (exists pre', pre = EvBegin :: EvSelectForUpdate (Z.min src dst) :: pre') /\
  In (EvSelectForUpdate (Z.min src dst)) pre /\
  f (OpSelectForUpdate (Z.min src dst)) = false /\
  is_Some (accounts db !! Z.min src dst).
Proof.
  intros Hamt Hne Hsplit.
  assert (Hdiff : Z.min src dst <> Z.max src dst) by lia.
  assert (Hin : In (EvSelectForUpdate (Z.max src dst))
                  (statements (Transfer f src dst amt) db))
    by (rewrite Hsplit; apply in_elt).
  destruct (Transfer_statements_shape f src dst amt db Hamt Hne)
    as [H|[H|[H|(Hf & Hrow & t & H)]]]; rewrite H in Hin, Hsplit.
  - simpl in Hin. destruct Hin as [Hin|[]]. discriminate.
  - simpl in Hin. destruct Hin as [Hin|[Hin|[Hin|[]]]]; try discriminate.
    injection Hin as Hin. congruence.
  - simpl in Hin. destruct Hin as [Hin|[Hin|[Hin|[Hin|[]]]]]; try discriminate.
    injection Hin as Hin. congruence.
  - assert (Hpre : exists pre',
               pre = EvBegin :: EvSelectForUpdate (Z.min src dst) :: pre').
    { destruct pre as [|x [|y pre']]; simpl in Hsplit.
      - discriminate.
      - injection Hsplit as _ Heq _. congruence.
      - injection Hsplit as <- <- _. eauto. }
    split; [exact Hpre|]. split; [|split; assumption].
    destruct Hpre as [pre' ->]. right. left. reflexivity.
Qed.

Lemma Transfer_locks_in_ascending_order_witness :
  (exists pre', [EvBegin; EvSelectForUpdate 100] =
                EvBegin :: EvSelectForUpdate (Z.min 200 100) :: pre') /\
  In (EvSelectForUpdate (Z.min 200 100)) [EvBegin; EvSelectForUpdate 100] /\
  no_faults (OpSelectForUpdate (Z.min 200 100)) = false /\
  is_Some (accounts opening !! Z.min 200 100).
Proof.
  apply (Transfer_locks_in_ascending_order no_faults opening 200 100
           (cents 10050) [EvBegin; EvSelectForUpdate 100]
           [EvUpdate (cents 39950) 200; EvUpdate (cents 110050) 100;
            EvInsertTransaction (succeeded_row 200 100 (cents 10050));
            EvCommit]).
  - reflexivity.
  - discriminate.
  - vm_compute. reflexivity.
Defined.

(** *** Account creation *)

Lemma CreateAccount_run f id initial db :
  run (CreateAccount f id initial) db =
  if f OpInsertAccount
  then (inl (Errorf "create account: %w" [] (Some Fault)), db,
        [EvInsertAccount id initial])
  else if numeric_10 initial <? 0
  then (inl (Errorf "create account: %w" [] (Some CheckViolation)), db,
        [EvInsertAccount id initial])
  else match accounts db !! id with
       | Some _ =>
           (inl (Errorf "create account: %w" [] (Some UniqueViolation)), db,
            [EvInsertAccount id initial])
       | None =>
           (inr tt,
            mkDB (<[id := numeric_10 initial]> (accounts db))
                 (transactions db),
            [EvInsertAccount id initial])
       end.
Proof.
  unfold run, CreateAccount, or_return, Exec_insert_account, check_balance,
    connect. simpl.
  destruct (f OpInsertAccount); [reflexivity|].
  destruct (Z.leb_spec 0 (numeric_10 initial)),
    (Z.ltb_spec (numeric_10 initial) 0); try lia; simpl.
  - destruct (accounts db !! id); reflexivity.
  - reflexivity.
Qed.

(** [Validate] on the sign of the opening balance. *)
Lemma CreateAccountRequest_Validate_cases r :
  (model.CreateAccountRequest_Validate r = None <->
   model.AccountID r <> 0 /\ 0 <= mant (model.InitialBalance r)) /\
  (model.CreateAccountRequest_Validate r = Some model.ErrInvalidAccountID <->
   model.AccountID r = 0) /\
  (model.CreateAccountRequest_Validate r
     = Some model.ErrInvalidInitialBalance <->
   model.AccountID r <> 0 /\ mant (model.InitialBalance r) < 0).
Proof.
  unfold model.CreateAccountRequest_Validate, IsNegative.
  destruct (Z.eqb_spec (model.AccountID r) 0);
    destruct (Z.ltb_spec (mant (model.InitialBalance r)) 0); simpl;
    repeat split; try discriminate; try lia; try tauto; intros; try lia.
Qed.

(** Every error of the store's [CreateAccount] gets the same response. *)
Lemma api_CreateAccount_error {S} (s : api.StoreAPI S) req st e st' :
  model.CreateAccountRequest_Validate req = None ->
  api.store_CreateAccount (model.AccountID req) (model.InitialBalance req) st
    = (inl e, st') ->
  api.CreateAccount (Some req) st =
  (api.http_Error "failed to create account" api.StatusInternalServerError,
   st').
Proof.
  intros Hv Hs. unfold api.CreateAccount. rewrite Hv, Hs. reflexivity.
Qed.

(** C6, as stated, fails: a negative opening balance is not stopped by the
    store; the INSERT is sent and the error is the table's constraint
    violation, wrapped. *)
Lemma CreateAccount_negative_reaches_the_database :
  ~ rejected_by_engine (CreateAccount no_faults 300 (cents (-5000))) opening /\
  run (CreateAccount no_faults 300 (cents (-5000))) opening =
    (inl (Errorf "create account: %w" [] (Some CheckViolation)), opening,
     [EvInsertAccount 300 (cents (-5000))]).
Proof.
  split; [|vm_compute; reflexivity].
  intros [_ Hnone]. vm_compute in Hnone. discriminate.
Qed.

(** C6, amended. For a negative opening balance the store performs no check
    of its own: it sends the INSERT with the balance as given.  When the
    balance is still negative after the column's rounding to ten fractional
    digits (that is, when it is at most -0.00000000005), the statement fails
    (on the constraint [CHECK (balance >= 0)] unless the connection fails
    first), the driver's error is returned wrapped as "create account: ...",
    and no account is inserted.  A negative balance above -0.00000000005
    rounds to zero and passes the constraint: if the identifier is free and
    nothing fails, [nil] is returned and the account exists with balance 0.
    The rejection as invalid input is made at the caller boundary only, and
    there for every negative balance: [Validate] refuses the request and the
    handler answers 400 without calling the store. *)
Theorem CreateAccount_negative_rejected_by_schema
    f db id initial {S} (s : api.StoreAPI S) (st : S) :
  mant initial < 0 ->
  statements (CreateAccount f id initial) db = [EvInsertAccount id initial] /\
  (numeric_10 initial < 0 <-> 2 * mant initial + pow10 (fine initial) <= 0) /\
  (numeric_10 initial < 0 ->
   (exists cause,
      returned (CreateAccount f id initial) db =
        inl (Errorf "create account: %w" [] (Some cause)) /\
      (cause = CheckViolation \/ cause = Fault) /\
      (f OpInsertAccount = false -> cause = CheckViolation)) /\
   state_after (CreateAccount f id initial) db = db) /\
  (0 <= numeric_10 initial ->
   f OpInsertAccount = false -> accounts db !! id = None ->
   returned (CreateAccount f id initial) db = inr tt /\
   state_after (CreateAccount f id initial) db =
     mkDB (<[id := 0]> (accounts db)) (transactions db)) /\
  (exists verr,
     model.CreateAccountRequest_Validate
       (model.mkCreateAccountRequest id initial) = Some verr /\
     api.CreateAccount (Some (model.mkCreateAccountRequest id initial)) st =
       (api.http_Error (model.Error verr) api.StatusBadRequest, st)).
Proof.
  intros Hneg. unfold returned, statements, state_after.
  rewrite CreateAccount_run.
  split; [|split; [|split; [|split]]].
  - destruct (f OpInsertAccount); [reflexivity|].
    destruct (numeric_10 initial <? 0); [reflexivity|].
    destruct (accounts db !! id); reflexivity.
  - apply numeric_10_negative_iff.
  - intros Hround. destruct (Z.ltb_spec (numeric_10 initial) 0); [|lia].
    destruct (f OpInsertAccount); simpl;
      (split; [eexists; split; [reflexivity|]; split; auto; discriminate
              |reflexivity]).
  - intros Hround Hf Hfree. rewrite Hf, Hfree.
    destruct (Z.ltb_spec (numeric_10 initial) 0); [lia|]. simpl.
    assert (Hz : numeric_10 initial = 0)
      by (pose proof (numeric_10_nonpos initial); lia).
    rewrite Hz. split; reflexivity.
  - unfold api.CreateAccount, model.CreateAccountRequest_Validate, IsNegative.
    simpl. destruct (id =? 0); [eexists; split; reflexivity|].
    destruct (Z.ltb_spec (mant initial) 0); [|lia].
    eexists; split; reflexivity.
Qed.

Lemma CreateAccount_negative_rejected_by_schema_witness :
  state_after (CreateAccount no_faults 300 (cents (-5000))) opening = opening /\
  state_after (CreateAccount no_faults 300 (mkDecimal (-4) 1)) opening =
    mkDB (<[300 := 0]> (accounts opening)) (transactions opening).
Proof.
  split.
  - destruct (CreateAccount_negative_rejected_by_schema no_faults opening 300
                (cents (-5000)) api.Recorder [] eq_refl) as (_ & _ & H & _).
    apply H. reflexivity.
  - destruct (CreateAccount_negative_rejected_by_schema no_faults opening 300
                (mkDecimal (-4) 1) api.Recorder [] eq_refl)
      as (_ & _ & _ & H & _).
    apply H; [discriminate | reflexivity | reflexivity].
Defined.

(** C9, as stated, fails: creating account 100 a second time, and creating
    it on an empty ledger while the connection is down, give the caller of
    the handler the same response, and neither error is one of the store's
    sentinels. *)
Lemma duplicate_account_response_is_indistinct :
  fst (@api.CreateAccount _ (api.Store no_faults)
         (Some (model.mkCreateAccountRequest 100 (cents 100000)))
         (connect opening)) =
  fst (@api.CreateAccount _ (api.Store insert_account_fails)
         (Some (model.mkCreateAccountRequest 100 (cents 100000)))
         (connect schema.empty)) /\
  returned (CreateAccount no_faults 100 (cents 100000)) opening =
    inl (Errorf "create account: %w" [] (Some UniqueViolation)) /\
  returned (CreateAccount insert_account_fails 100 (cents 100000)) schema.empty =
    inl (Errorf "create account: %w" [] (Some Fault)).
Proof. vm_compute. repeat split. Qed.

(** C9, amended. Creating an account whose identifier exists fails and
    changes nothing.  The store has no error value of its own for it: it
    returns the driver's error wrapped as "create account: ...", which is the
    unique-key violation when the statement reaches the table with a
    non-negative balance, and which is neither of the store's sentinels.  The
    handler answers every error of the store's [CreateAccount], this one
    included, with 500 "failed to create account". *)
Theorem CreateAccount_duplicate_fails_unnamed f db id initial b :
  accounts db !! id = Some b ->
  (exists cause,
     returned (CreateAccount f id initial) db =
       inl (Errorf "create account: %w" [] (Some cause)) /\
     (f OpInsertAccount = false -> 0 <= numeric_10 initial ->
      cause = UniqueViolation) /\
     errors_Is (Errorf "create account: %w" [] (Some cause))
       ErrAccountNotFound = false /\
     errors_Is (Errorf "create account: %w" [] (Some cause))
       ErrInsufficientFunds = false) /\
  state_after (CreateAccount f id initial) db = db /\
  (id <> 0 -> 0 <= mant initial ->
   fst (@api.CreateAccount _ (api.Store f)
          (Some (model.mkCreateAccountRequest id initial)) (connect db)) =
   api.http_Error "failed to create account" api.StatusInternalServerError) /\
  (forall S (s : api.StoreAPI S) req st e st',
     model.CreateAccountRequest_Validate req = None ->
     api.store_CreateAccount (model.AccountID req) (model.InitialBalance req)
       st = (inl e, st') ->
     api.CreateAccount (Some req) st =
     (api.http_Error "failed to create account"
        api.StatusInternalServerError, st')).
Proof.
  intros Hid.
  assert (Hrun := CreateAccount_run f id initial db). rewrite Hid in Hrun.
  split; [|split; [|split]].
  - unfold returned. rewrite Hrun.
    destruct (f OpInsertAccount);
      [|destruct (Z.ltb_spec (numeric_10 initial) 0)]; simpl;
      eexists; (split; [reflexivity|]); repeat split;
      intros; try discriminate; try lia.
  - unfold state_after. rewrite Hrun.
    destruct (f OpInsertAccount); [|destruct (numeric_10 initial <? 0)];
      reflexivity.
  - intros Hnz Hpos.
    destruct (CreateAccount f id initial (connect db)) as [r c] eqn:Hc.
    assert (Hr : exists e, r = inl e).
    { unfold run in Hrun. rewrite Hc in Hrun.
      destruct (f OpInsertAccount); [|destruct (numeric_10 initial <? 0)];
        injection Hrun as -> _ _; eauto. }
    destruct Hr as [e ->].
    erewrite (api_CreateAccount_error (api.Store f)); [reflexivity| |exact Hc].
    apply (proj1 (CreateAccountRequest_Validate_cases _)). split; assumption.
  - intros S s req st e st'. apply api_CreateAccount_error.
Qed.

Lemma CreateAccount_duplicate_fails_unnamed_witness :
  state_after (CreateAccount no_faults 100 (cents 1)) opening = opening.
Proof.
  apply (CreateAccount_duplicate_fails_unnamed no_faults opening 100 (cents 1)
           10000000000000).
  reflexivity.
Defined.

(** *** The HTTP boundary *)

(** [Validate] on the identifiers and the sign of the amount. *)
Lemma TransactionRequest_Validate_cases r :
  (model.TransactionRequest_Validate r = None <->
   model.SourceAccountID r <> 0 /\ model.DestinationAccountID r <> 0 /\
   model.SourceAccountID r <> model.DestinationAccountID r /\
   0 < mant (model.Amount r)) /\
  (model.TransactionRequest_Validate r = Some model.ErrInvalidAccountID <->
   model.SourceAccountID r = 0 \/ model.DestinationAccountID r = 0) /\
  (model.TransactionRequest_Validate r = Some model.ErrSameSourceDestination <->
   model.SourceAccountID r <> 0 /\
   model.SourceAccountID r = model.DestinationAccountID r) /\
  (model.TransactionRequest_Validate r = Some model.ErrInvalidAmount <->
   model.SourceAccountID r <> 0 /\ model.DestinationAccountID r <> 0 /\
   model.SourceAccountID r <> model.DestinationAccountID r /\
   mant (model.Amount r) <= 0).
Proof.
  unfold model.TransactionRequest_Validate. rewrite GreaterThan_Zero.
  destruct (Z.eqb_spec (model.SourceAccountID r) 0);
    destruct (Z.eqb_spec (model.DestinationAccountID r) 0);
    destruct (Z.eqb_spec (model.SourceAccountID r)
                (model.DestinationAccountID r));
    destruct (Z.ltb_spec 0 (mant (model.Amount r))); simpl;
    repeat split; try discriminate; try lia; try tauto; intros; try lia.
Qed.

(** C10. A transfer request whose source and destination identifiers are
    equal is refused by [TransactionRequest.Validate]; the handler answers
    400 with that error and never calls the store, whatever the store is.
    Hence every call of the store's [Transfer] that the handler makes has
    two different identifiers (both non-zero, and a positive amount). *)
Theorem CreateTransaction_same_account_refused :
  (forall S (s : api.StoreAPI S) (st : S) req,
     model.SourceAccountID req = model.DestinationAccountID req ->
     exists verr,
       model.TransactionRequest_Validate req = Some verr /\
       (verr = model.ErrInvalidAccountID \/
        verr = model.ErrSameSourceDestination) /\
       api.CreateTransaction (Some req) st =
         (api.http_Error (model.Error verr) api.StatusBadRequest, st)) /\
  (forall decoded log src dst amt,
     In (api.CallTransfer src dst amt)
        (snd (@api.CreateTransaction _ api.Recorder decoded log)) ->
     In (api.CallTransfer src dst amt) log \/
     (src <> dst /\ src <> 0 /\ dst <> 0 /\ 0 < mant amt)).
Proof.
  split.
  - intros S s st req Heq.
    unfold api.CreateTransaction, model.TransactionRequest_Validate.
    rewrite Heq, Z.eqb_refl.
    destruct (model.DestinationAccountID req =? 0); simpl;
      eexists; (split; [reflexivity|]); split; auto.
  - intros decoded log src dst amt.
    unfold api.CreateTransaction.
    destruct decoded as [req|]; simpl; [|auto].
    destruct (model.TransactionRequest_Validate req) eqn:Hv; simpl; [auto|].
    destruct (proj1 (proj1 (TransactionRequest_Validate_cases req)) Hv)
      as (Hs & Hd & Hne & Hamt).
    intros Hin. apply in_app_or in Hin. destruct Hin as [Hin|[Hin|[]]];
      [auto|].
    injection Hin as <- <- <-. auto.
Qed.

Lemma CreateTransaction_same_account_refused_witness :
  exists verr,
    model.TransactionRequest_Validate
      (model.mkTransactionRequest 100 100 (cents 5000)) = Some verr /\
    (verr = model.ErrInvalidAccountID \/
     verr = model.ErrSameSourceDestination) /\
    @api.CreateTransaction _ (api.Store no_faults)
      (Some (model.mkTransactionRequest 100 100 (cents 5000)))
      (connect opening) =
      (api.http_Error (model.Error verr) api.StatusBadRequest,
       connect opening).
Proof.
  apply (proj1 CreateTransaction_same_account_refused _ (api.Store no_faults)
           (connect opening)
           (model.mkTransactionRequest 100 100 (cents 5000))).
  reflexivity.
Defined.

(** * Further properties of the code *)

(** ** Accounts: creation and lookup *)

Lemma GetAccount_run f id db :
  run (GetAccount f id) db =
  if f (OpSelect id)
  then (inl (Errorf "get account: %w" [] (Some Fault)), db, [EvSelect id])
  else match accounts db !! id with
       | Some b => (inr (of_units b), db, [EvSelect id])
       | None => (inl ErrAccountNotFound, db, [EvSelect id])
       end.
Proof.
  unfold run, GetAccount, bind, or_return, QueryRow_balance, connect. simpl.
  destruct (f (OpSelect id)); [reflexivity|].
  destruct (accounts db !! id); reflexivity.
Qed.

Lemma CreateAccount_returns_nil_iff f id initial db :
  returned (CreateAccount f id initial) db = inr tt <->
  f OpInsertAccount = false /\ 0 <= numeric_10 initial /\
  accounts db !! id = None.
Proof.
  unfold returned. rewrite CreateAccount_run.
  destruct (f OpInsertAccount); simpl; [split; [|intros (? & _)]; discriminate|].
  destruct (Z.ltb_spec (numeric_10 initial) 0); simpl;
    [split; [discriminate|intros (_ & ? & _); lia]|].
  destruct (accounts db !! id); simpl;
    [split; [|intros (_ & _ & ?)]; discriminate|].
  split; auto.
Qed.

(** X1. [CreateAccount] returns [nil] exactly when the statement does not
    fault, the opening balance rounded to the column's ten fractional digits
    is not negative, and the identifier is not yet in the table.  A balance
    that is negative by less than half a unit of the tenth digit rounds to
    zero and is accepted. *)
Theorem CreateAccount_succeeds_iff f id initial db :
  (returned (CreateAccount f id initial) db = inr tt <->
   f OpInsertAccount = false /\ 0 <= numeric_10 initial /\
   accounts db !! id = None) /\
  returned (CreateAccount no_faults 300 (mkDecimal (-4) 1)) scenario.opening
    = inr tt.
Proof.
  split; [apply CreateAccount_returns_nil_iff|reflexivity].
Qed.

Lemma CreateAccount_succeeds_iff_witness :
  returned (CreateAccount no_faults 300 (cents 0)) opening = inr tt.
Proof.
  apply (proj2 (proj1 (CreateAccount_succeeds_iff no_faults 300 (cents 0)
                         opening))).
  repeat split. discriminate.
Defined.

(** X2. An account that [CreateAccount] has just created was not found by
    [GetAccount] before, and is found afterwards with the opening balance
    as the column stores it: rounded to ten fractional digits, ties away
    from zero. *)
Theorem CreateAccount_then_GetAccount f g id initial db :
  returned (CreateAccount f id initial) db = inr tt ->
  g (OpSelect id) = false ->
  returned (GetAccount g id) db = inl ErrAccountNotFound /\
  returned (GetAccount g id) (state_after (CreateAccount f id initial) db)
    = inr (of_units (numeric_10 initial)).
Proof.
  intros Hok Hg.
  apply CreateAccount_returns_nil_iff in Hok. destruct Hok as (Hf & Hpos & Hnone).
  unfold returned, state_after. rewrite CreateAccount_run, !GetAccount_run.
  rewrite Hf, Hg, Hnone. destruct (Z.ltb_spec (numeric_10 initial) 0); [lia|].
  simpl. rewrite lookup_insert_eq. split; reflexivity.
Qed.

Lemma CreateAccount_then_GetAccount_witness :
  returned (GetAccount no_faults 300) opening = inl ErrAccountNotFound /\
  returned (GetAccount no_faults 300)
    (state_after (CreateAccount no_faults 300 (mkDecimal 12345678905 1))
       opening)
    = inr (of_units 1234567891).
Proof.
  apply (CreateAccount_then_GetAccount no_faults no_faults 300
           (mkDecimal 12345678905 1) opening); reflexivity.
Defined.

Lemma CreateAccount_existing_rows f id initial db :
  statements (CreateAccount f id initial) db = [EvInsertAccount id initial] /\
  transactions (state_after (CreateAccount f id initial) db) = transactions db /\
  (forall id' b,
     accounts db !! id' = Some b ->
     accounts (state_after (CreateAccount f id initial) db) !! id' = Some b).
Proof.
  unfold state_after, statements. rewrite CreateAccount_run.
  destruct (f OpInsertAccount); [auto|].
  destruct (numeric_10 initial <? 0); [auto|].
  destruct (accounts db !! id) eqn:Hid; [auto|]. simpl.
  repeat split. intros id' b Hb.
  rewrite lookup_insert_ne by congruence. exact Hb.
Qed.

(** X3. Whatever it returns, and whatever the table holds, [CreateAccount]
    sends the one INSERT and leaves the audit log alone; and every account
    that exists keeps the balance it has: an existing account is never
    overwritten. *)
Theorem CreateAccount_keeps_existing f id initial db :
  statements (CreateAccount f id initial) db = [EvInsertAccount id initial] /\
  transactions (state_after (CreateAccount f id initial) db) = transactions db /\
  (forall id' b,
     accounts db !! id' = Some b ->
     accounts (state_after (CreateAccount f id initial) db) !! id' = Some b).
Proof. apply CreateAccount_existing_rows. Qed.

Lemma CreateAccount_keeps_existing_witness :
  accounts (state_after (CreateAccount no_faults 100 (cents 1)) opening) !! 100
    = Some 10000000000000.
Proof.
  apply (proj2 (proj2 (CreateAccount_keeps_existing no_faults 100 (cents 1)
                         opening)) 100 10000000000000).
  reflexivity.
Defined.

(** X4. [GetAccount] only reads: it sends one SELECT and leaves the state as
    it is; when the SELECT does not fault it returns the balance of an
    existing account and [ErrAccountNotFound] for a missing one, and when it
    faults the error is not [ErrAccountNotFound]. *)
Theorem GetAccount_reads_only f id db :
  state_after (GetAccount f id) db = db /\
  statements (GetAccount f id) db = [EvSelect id] /\
  (f (OpSelect id) = false ->
   returned (GetAccount f id) db =
     match accounts db !! id with
     | Some b => inr (of_units b)
     | None => inl ErrAccountNotFound
     end) /\
  (f (OpSelect id) = true ->
   exists e, returned (GetAccount f id) db = inl e /\
             errors_Is e ErrAccountNotFound = false).
Proof.
  unfold state_after, statements, returned. rewrite GetAccount_run.
  destruct (f (OpSelect id)); simpl.
  - repeat split; [discriminate|]. intros _. eexists. split; reflexivity.
  - destruct (accounts db !! id); repeat split; discriminate.
Qed.

Lemma GetAccount_reads_only_witness :
  returned (GetAccount no_faults 200) opening = inr (cents 50000).
Proof.
  destruct (GetAccount_reads_only no_faults 200 opening) as (_ & _ & H & _).
  apply H. reflexivity.
Defined.

(** ** Transfers: every way a call can end *)

Lemma insert_trace_eq f row c :
  trace (snd (Exec_insert_transaction f row c)) =
  trace c ++ [EvInsertTransaction row].
Proof.
  unfold Exec_insert_transaction, emit. simpl.
  destruct (staged c); [|reflexivity].
  destruct (f OpInsertTransaction); [reflexivity|].
  destruct (check_amount _); reflexivity.
Qed.

(** An INSERT INTO transactions, accepted or not, leaves the transaction
    open. *)
Lemma insert_staged f row c :
  is_Some (staged c) ->
  is_Some (staged (snd (Exec_insert_transaction f row c))).
Proof.
  intros [w Hw]. unfold Exec_insert_transaction, emit. simpl. rewrite Hw.
  destruct (f OpInsertTransaction); [simpl; eauto|].
  destruct (check_amount _); simpl; eauto.
Qed.

(** The deferred [Rollback] reaches the database when the transaction is
    still open, and only then. *)
Lemma Rollback_trace_open c :
  is_Some (staged c) -> trace (snd (Rollback c)) = trace c ++ [EvRollback].
Proof. intros [w Hw]. unfold Rollback. rewrite Hw. reflexivity. Qed.

Lemma Rollback_trace_closed c :
  staged c = None -> trace (snd (Rollback c)) = trace c.
Proof. intros Hw. unfold Rollback. rewrite Hw. reflexivity. Qed.

(** The five ways the reads of an open transaction can go, [lo] and [hi]
    being the two identifiers in the order [sort.Slice] leaves them. *)
Lemma Transfer_tx_outcome_sorted f src dst amt db w t lo hi :
  src <> dst ->
  sort_Slice [src; dst] = [lo; hi] ->
  (lo = src /\ hi = dst) \/ (lo = dst /\ hi = src) ->
  let ins :=
    EvInsertTransaction (failed_row src dst amt "account not found") in
  let R := Transfer_tx f src dst amt (mkConn db (Some w) t) in
  (f (OpSelectForUpdate lo) = true /\
   fst R = inl (Errorf "select balance for account %d: %w" [lo] (Some Fault)) /\
   trace (snd R) = t ++ [EvSelectForUpdate lo] /\
   is_Some (staged (snd R))) \/
  (f (OpSelectForUpdate lo) = false /\ accounts w !! lo = None /\
   fst R = inl ErrAccountNotFound /\
   trace (snd R) = t ++ [EvSelectForUpdate lo; ins] /\
   is_Some (staged (snd R))) \/
  (f (OpSelectForUpdate lo) = false /\ is_Some (accounts w !! lo) /\
   f (OpSelectForUpdate hi) = true /\
   fst R = inl (Errorf "select balance for account %d: %w" [hi] (Some Fault)) /\
   trace (snd R) = t ++ [EvSelectForUpdate lo; EvSelectForUpdate hi] /\
   is_Some (staged (snd R))) \/
  (f (OpSelectForUpdate lo) = false /\ is_Some (accounts w !! lo) /\
   f (OpSelectForUpdate hi) = false /\ accounts w !! hi = None /\
   fst R = inl ErrAccountNotFound /\
   trace (snd R) =
     t ++ [EvSelectForUpdate lo; EvSelectForUpdate hi; ins] /\
   is_Some (staged (snd R))) \/
  (exists sb dbal,
     f (OpSelectForUpdate src) = false /\ f (OpSelectForUpdate dst) = false /\
     accounts w !! src = Some sb /\ accounts w !! dst = Some dbal /\
     R = Transfer_apply f src dst amt (of_units sb) (of_units dbal)
           (mkConn db (Some w)
              (t ++ [EvSelectForUpdate lo; EvSelectForUpdate hi]))).
Proof.
  intros Hne Hsort Hcase. cbv zeta.
  assert (Hmm : [Z.min src dst; Z.max src dst] = [lo; hi])
    by (rewrite <- (sort_Slice_min_max _ _ Hne); exact Hsort).
  injection Hmm as Hmin Hmax.
  destruct (f (OpSelectForUpdate lo)) eqn:Hflo;
    [|destruct (accounts w !! lo) as [blo|] eqn:Hlo;
      [destruct (f (OpSelectForUpdate hi)) eqn:Hfhi;
       [|destruct (accounts w !! hi) as [bhi|] eqn:Hhi]|]].
  - left. unfold Transfer_tx.
    rewrite Hsort, bind_fetch_cons, Hflo. simpl. repeat split. eauto.
  - right; right; left. unfold Transfer_tx.
    rewrite Hsort, bind_fetch_cons, Hflo, Hlo, bind_fetch_cons, Hfhi. simpl.
    repeat split; eauto; simpl; rewrite <- ?app_assoc; reflexivity.
  - right; right; right; right.
    destruct Hcase as [[Es Ed]|[Ed Es]]; subst lo hi.
    + exists blo, bhi. repeat split; try assumption.
      rewrite (Transfer_tx_reads f src dst amt db w t blo bhi); try assumption.
      rewrite Hmin, Hmax, <- app_assoc. reflexivity.
    + exists bhi, blo. repeat split; try assumption.
      rewrite (Transfer_tx_reads f src dst amt db w t bhi blo); try assumption.
      rewrite Hmin, Hmax, <- app_assoc. reflexivity.
  - right; right; right; left. unfold Transfer_tx.
    rewrite Hsort, bind_fetch_cons, Hflo, Hlo, bind_fetch_cons, Hfhi, Hhi.
    simpl. rewrite insert_trace_eq. simpl.
    repeat split; eauto; simpl; rewrite <- ?app_assoc; try reflexivity.
    apply insert_staged. simpl. eauto.
  - right; left. unfold Transfer_tx.
    rewrite Hsort, bind_fetch_cons, Hflo, Hlo. simpl.
    rewrite insert_trace_eq. simpl.
    repeat split; eauto; simpl; rewrite <- ?app_assoc; try reflexivity.
    apply insert_staged. simpl. eauto.
Qed.

Lemma Transfer_tx_outcome f src dst amt db w t :
  src <> dst ->
  let lo := Z.min src dst in
  let hi := Z.max src dst in
  let ins :=
    EvInsertTransaction (failed_row src dst amt "account not found") in
  let R := Transfer_tx f src dst amt (mkConn db (Some w) t) in
  (f (OpSelectForUpdate lo) = true /\
   fst R = inl (Errorf "select balance for account %d: %w" [lo] (Some Fault)) /\
   trace (snd R) = t ++ [EvSelectForUpdate lo] /\
   is_Some (staged (snd R))) \/
  (f (OpSelectForUpdate lo) = false /\ accounts w !! lo = None /\
   fst R = inl ErrAccountNotFound /\
   trace (snd R) = t ++ [EvSelectForUpdate lo; ins] /\
   is_Some (staged (snd R))) \/
  (f (OpSelectForUpdate lo) = false /\ is_Some (accounts w !! lo) /\
   f (OpSelectForUpdate hi) = true /\
   fst R = inl (Errorf "select balance for account %d: %w" [hi] (Some Fault)) /\
   trace (snd R) = t ++ [EvSelectForUpdate lo; EvSelectForUpdate hi] /\
   is_Some (staged (snd R))) \/
  (f (OpSelectForUpdate lo) = false /\ is_Some (accounts w !! lo) /\
   f (OpSelectForUpdate hi) = false /\ accounts w !! hi = None /\
   fst R = inl ErrAccountNotFound /\
   trace (snd R) =
     t ++ [EvSelectForUpdate lo; EvSelectForUpdate hi; ins] /\
   is_Some (staged (snd R))) \/
  (exists sb dbal,
     f (OpSelectForUpdate src) = false /\ f (OpSelectForUpdate dst) = false /\
     accounts w !! src = Some sb /\ accounts w !! dst = Some dbal /\
     R = Transfer_apply f src dst amt (of_units sb) (of_units dbal)
           (mkConn db (Some w)
              (t ++ [EvSelectForUpdate lo; EvSelectForUpdate hi]))).
Proof.
  intros Hne.
  apply (Transfer_tx_outcome_sorted f src dst amt db w t
           (Z.min src dst) (Z.max src dst) Hne (sort_Slice_min_max _ _ Hne)).
  lia.
Qed.

(** A call past its upfront checks and [Begin] is its transaction followed
    by the deferred rollback. *)
Lemma Transfer_run_tx f src dst amt db :
  0 < mant amt -> src <> dst -> f OpBegin = false ->
  let R := Transfer_tx f src dst amt (mkConn db (Some db) [EvBegin]) in
  returned (Transfer f src dst amt) db = fst R /\
  state_after (Transfer f src dst amt) db = committed (snd R) /\
  statements (Transfer f src dst amt) db = trace (snd (Rollback (snd R))).
Proof.
  intros Hamt Hne Hb R. unfold returned, state_after, statements, run.
  rewrite (Transfer_begin f src dst amt db Hamt Hne), Hb.
  unfold defer_rollback. fold R. destruct R as [r c]. simpl.
  rewrite Rollback_committed. repeat split.
Qed.

(** What a call that returns an error of a given kind must have passed. *)
Lemma Transfer_error_began f src dst amt db e :
  returned (Transfer f src dst amt) db = inl e ->
  (forall fmt args w, e <> Errorf fmt args w) ->
  0 < mant amt /\ src <> dst /\ f OpBegin = false.
Proof.
  intros Hr Hsent.
  destruct (Z.leb_spec (mant amt) 0) as [Hle|Hlt].
  { exfalso. rewrite (Transfer_nonpositive_returns f src dst amt db Hle) in Hr.
    injection Hr as <-. eapply Hsent. reflexivity. }
  destruct (Z.eq_dec src dst) as [->|Hne].
  { exfalso. revert Hr. unfold returned, run, Transfer.
    rewrite LessThanOrEqual_Zero.
    destruct (Z.leb_spec (mant amt) 0); [lia|]. rewrite Z.eqb_refl.
    discriminate. }
  repeat split; try assumption.
  destruct (f OpBegin) eqn:Hb; [|reflexivity].
  exfalso. revert Hr. unfold returned, run.
  rewrite (Transfer_begin f src dst amt db Hlt Hne), Hb. simpl. intros [= <-].
  eapply Hsent. reflexivity.
Qed.

(** X5. A transfer between two different accounts that returns [nil] has
    sent exactly: begin, the two locked reads in ascending order, the update
    of the source with the exact difference, the update of the destination
    with the exact sum, the succeeded row, commit.  The deferred rollback
    finds the transaction over and sends nothing.  The call has appended
    exactly one row to the audit log, the succeeded one with the amount as
    the column rounds it, and every account other than the two holds what it
    held. *)
Theorem Transfer_success_effect f src dst amt db :
  0 < mant amt -> src <> dst ->
  returned (Transfer f src dst amt) db = inr tt ->
  exists sb dbal,
    accounts db !! src = Some sb /\ accounts db !! dst = Some dbal /\
    statements (Transfer f src dst amt) db =
      [EvBegin; EvSelectForUpdate (Z.min src dst);
       EvSelectForUpdate (Z.max src dst);
       EvUpdate (Sub (of_units sb) amt) src;
       EvUpdate (Add (of_units dbal) amt) dst;
       EvInsertTransaction (succeeded_row src dst amt); EvCommit] /\
    appended db (state_after (Transfer f src dst amt) db) =
      [stored_row (succeeded_row src dst amt)] /\
    (forall id, id <> src -> id <> dst ->
       accounts (state_after (Transfer f src dst amt) db) !! id =
       accounts db !! id).
Proof.
  intros Hamt Hne Hok.
  assert (Hb : f OpBegin = false).
  { destruct (f OpBegin) eqn:Hb; [|reflexivity].
    revert Hok. unfold returned, run.
    rewrite (Transfer_begin f src dst amt db Hamt Hne), Hb. discriminate. }
  destruct (Transfer_run_tx f src dst amt db Hamt Hne Hb) as (Hr & Hs & Ht).
  rewrite Hr in Hok. rewrite Hs, Ht. clear Hr Hs Ht.
  destruct (Transfer_tx f src dst amt (mkConn db (Some db) [EvBegin]))
    as [r c'] eqn:Htx.
  simpl in Hok. subst r.
  destruct (Transfer_tx_success_reads _ _ _ _ _ _ _ _ Hne Htx)
    as (sb & dbal & Hfs & Hfd & Hsb & Hdb).
  rewrite (Transfer_tx_reads f src dst amt db db _ sb dbal Hne Hfs Hfd Hsb Hdb)
    in Htx.
  apply (Transfer_apply_success _ _ _ _ _ _ _ _ _ sb dbal _ Hne Hsb Hdb)
    in Htx.
  destruct Htx as (_ & _ & _ & _ & ->).
  exists sb, dbal. simpl. repeat split; try assumption.
  - unfold appended. simpl. apply drop_app_length.
  - intros id Hs Hd. rewrite !lookup_insert_ne by congruence. reflexivity.
Qed.

Lemma Transfer_success_effect_witness :
  exists sb dbal,
    accounts opening !! 200 = Some sb /\ accounts opening !! 100 = Some dbal /\
    statements (Transfer no_faults 200 100 half_unit) opening =
      [EvBegin; EvSelectForUpdate (Z.min 200 100);
       EvSelectForUpdate (Z.max 200 100);
       EvUpdate (Sub (of_units sb) half_unit) 200;
       EvUpdate (Add (of_units dbal) half_unit) 100;
       EvInsertTransaction (succeeded_row 200 100 half_unit); EvCommit] /\
    appended opening
      (state_after (Transfer no_faults 200 100 half_unit) opening) =
      [stored_row (succeeded_row 200 100 half_unit)] /\
    (forall id, id <> 200 -> id <> 100 ->
       accounts (state_after (Transfer no_faults 200 100 half_unit)
                   opening) !! id =
       accounts opening !! id).
Proof.
  apply (Transfer_success_effect no_faults 200 100 half_unit opening);
    [reflexivity | discriminate | reflexivity].
Defined.

(** X6. [ErrInsufficientFunds] is returned only by a call for a positive
    amount between two different existing accounts whose source holds less
    than the amount.  Such a call has locked both rows, has sent no UPDATE,
    and leaves the committed state as it was. *)
Theorem Transfer_insufficient_funds_sound f src dst amt db :
  returned (Transfer f src dst amt) db = inl ErrInsufficientFunds ->
  0 < mant amt /\ src <> dst /\
  (exists sb dbal,
     accounts db !! src = Some sb /\ accounts db !! dst = Some dbal /\
     LessThan (of_units sb) amt = true) /\
  statements (Transfer f src dst amt) db =
    [EvBegin; EvSelectForUpdate (Z.min src dst);
     EvSelectForUpdate (Z.max src dst);
     EvInsertTransaction (failed_row src dst amt "insufficient funds");
     EvRollback] /\
  state_after (Transfer f src dst amt) db = db.
Proof.
  intros Hr.
  destruct (Transfer_error_began f src dst amt db _ Hr) as (Hamt & Hne & Hb);
    [discriminate|].
  split; [assumption|]. split; [assumption|].
  rewrite (Transfer_error_state f src dst amt db _ Hr).
  destruct (Transfer_run_tx f src dst amt db Hamt Hne Hb) as (Hret & _ & Ht).
  rewrite Hret in Hr. rewrite Ht. clear Hret Ht.
  destruct (Transfer_tx_outcome f src dst amt db db [EvBegin] Hne)
    as [(_ & He & _)|[(_ & _ & He & _)|[(_ & _ & _ & He & _)|
        [(_ & _ & _ & _ & He & _)|(sb & dbal & _ & _ & Hsb & Hdb & HR)]]]];
    try (rewrite He in Hr; discriminate).
  rewrite HR in Hr |- *.
  destruct (LessThan (of_units sb) amt) eqn:Hlt.
  - rewrite Transfer_apply_insufficient by assumption. simpl.
    rewrite Rollback_trace_open by (apply insert_staged; simpl; eauto).
    rewrite insert_trace_eq. simpl. repeat split. eauto.
  - exfalso. revert Hr. apply Transfer_apply_sufficient. assumption.
Qed.

Lemma Transfer_insufficient_funds_sound_witness :
  state_after (Transfer no_faults 100 200 (cents 100000)) after_first
  = after_first.
Proof.
  apply (Transfer_insufficient_funds_sound no_faults 100 200 (cents 100000)
           after_first).
  vm_compute. reflexivity.
Defined.

Lemma Transfer_account_not_found_cases f src dst amt db :
  returned (Transfer f src dst amt) db = inl ErrAccountNotFound ->
  let lo := Z.min src dst in
  let hi := Z.max src dst in
  let ins :=
    EvInsertTransaction (failed_row src dst amt "account not found") in
  (accounts db !! src = None \/ accounts db !! dst = None) /\
  (accounts db !! lo = None /\
   statements (Transfer f src dst amt) db =
     [EvBegin; EvSelectForUpdate lo; ins; EvRollback] \/
   is_Some (accounts db !! lo) /\ accounts db !! hi = None /\
   statements (Transfer f src dst amt) db =
     [EvBegin; EvSelectForUpdate lo; EvSelectForUpdate hi; ins; EvRollback]) /\
  state_after (Transfer f src dst amt) db = db.
Proof.
  intros Hr. cbv zeta.
  destruct (Transfer_error_began f src dst amt db _ Hr) as (Hamt & Hne & Hb);
    [discriminate|].
  rewrite (Transfer_error_state f src dst amt db _ Hr).
  destruct (Transfer_run_tx f src dst amt db Hamt Hne Hb) as (Hret & _ & Ht).
  rewrite Hret in Hr. rewrite Ht. clear Hret Ht.
  assert (Hcase : (Z.min src dst = src /\ Z.max src dst = dst) \/
                  (Z.min src dst = dst /\ Z.max src dst = src)) by lia.
  destruct (Transfer_tx_outcome f src dst amt db db [EvBegin] Hne)
    as [(_ & He & _)|[(_ & Hlo & _ & Htr & Hst)|[(_ & _ & _ & He & _)|
        [(_ & Hlo & _ & Hhi & _ & Htr & Hst)
        |(sb & dbal & _ & _ & Hsb & Hdb & HR)]]]];
    try (rewrite He in Hr; discriminate).
  - rewrite (Rollback_trace_open _ Hst), Htr.
    split; [|split; [left; split|]];
      try reflexivity; try assumption.
    destruct Hcase as [[Es _]|[Es _]]; rewrite Es in Hlo; auto.
  - rewrite (Rollback_trace_open _ Hst), Htr.
    split; [|split; [right; repeat split|]]; try reflexivity; try assumption.
    destruct Hcase as [[_ Ed]|[_ Ed]]; rewrite Ed in Hhi; auto.
  - exfalso. rewrite HR in Hr. revert Hr. unfold Transfer_apply.
    destruct (LessThan _ _); [discriminate|]. cbv zeta. unfold bind, or_return.
    repeat match goal with
           | |- context [match ?p ?c with _ => _ end] =>
               destruct (p c) as [[?|?] ?]; simpl; try discriminate
           end.
Qed.

(** X7. [ErrAccountNotFound] is returned only when one of the two accounts
    is missing.  If it is the one with the smaller identifier, the other row
    is never locked; in both cases no UPDATE is sent and the committed state
    is as it was. *)
Theorem Transfer_account_not_found_sound f src dst amt db :
  returned (Transfer f src dst amt) db = inl ErrAccountNotFound ->
  let lo := Z.min src dst in
  let hi := Z.max src dst in
  let ins :=
    EvInsertTransaction (failed_row src dst amt "account not found") in
  (accounts db !! src = None \/ accounts db !! dst = None) /\
  (accounts db !! lo = None /\
   statements (Transfer f src dst amt) db =
     [EvBegin; EvSelectForUpdate lo; ins; EvRollback] \/
   is_Some (accounts db !! lo) /\ accounts db !! hi = None /\
   statements (Transfer f src dst amt) db =
     [EvBegin; EvSelectForUpdate lo; EvSelectForUpdate hi; ins; EvRollback]) /\
  state_after (Transfer f src dst amt) db = db.
Proof. apply Transfer_account_not_found_cases. Qed.

Lemma Transfer_account_not_found_sound_witness :
  state_after (Transfer no_faults 999 200 (cents 1)) opening = opening.
Proof.
  apply (Transfer_account_not_found_sound no_faults 999 200 (cents 1) opening).
  vm_compute. reflexivity.
Defined.

Lemma Transfer_not_found_when_reads_succeed f src dst amt db :
  0 < mant amt -> src <> dst ->
  f OpBegin = false ->
  f (OpSelectForUpdate src) = false -> f (OpSelectForUpdate dst) = false ->
  (returned (Transfer f src dst amt) db = inl ErrAccountNotFound <->
   accounts db !! src = None \/ accounts db !! dst = None).
Proof.
  intros Hamt Hne Hb Hfs Hfd. split.
  - intros Hr.
    apply (Transfer_account_not_found_cases f src dst amt db Hr).
  - intros Hmiss.
    destruct (Transfer_run_tx f src dst amt db Hamt Hne Hb) as (-> & _ & _).
    assert (Hcase : (Z.min src dst = src /\ Z.max src dst = dst) \/
                    (Z.min src dst = dst /\ Z.max src dst = src)) by lia.
    destruct (Transfer_tx_outcome f src dst amt db db [EvBegin] Hne)
      as [(Hf & _)|[(_ & _ & He & _)|[(_ & _ & Hf & _)|
          [(_ & _ & _ & _ & He & _)|(sb & dbal & _ & _ & Hsb & Hdb & _)]]]];
      try exact He.
    + destruct Hcase as [[E _]|[E _]]; rewrite E in Hf; congruence.
    + destruct Hcase as [[_ E]|[_ E]]; rewrite E in Hf; congruence.
    + destruct Hmiss; congruence.
Qed.

(** X8. For a positive amount and two different identifiers, when the
    transaction begins and neither locked read faults, the call returns
    [ErrAccountNotFound] exactly when one of the two accounts is missing. *)
Theorem Transfer_account_not_found_iff f src dst amt db :
  0 < mant amt -> src <> dst ->
  f OpBegin = false ->
  f (OpSelectForUpdate src) = false -> f (OpSelectForUpdate dst) = false ->
  (returned (Transfer f src dst amt) db = inl ErrAccountNotFound <->
   accounts db !! src = None \/ accounts db !! dst = None).
Proof. apply Transfer_not_found_when_reads_succeed. Qed.

Lemma Transfer_account_not_found_iff_witness :
  returned (Transfer no_faults 100 999 (cents 1)) opening
  = inl ErrAccountNotFound.
Proof.
  apply (proj2 (Transfer_account_not_found_iff no_faults 100 999 (cents 1)
                  opening eq_refl ltac:(discriminate) eq_refl eq_refl eq_refl)).
  right. reflexivity.
Defined.

Lemma Transfer_nonpositive_refused f src dst amt db :
  mant amt <= 0 ->
  returned (Transfer f src dst amt) db
    = inl (Errorf "amount must be positive" [] None) /\
  errors_Is (Errorf "amount must be positive" [] None) ErrAccountNotFound
    = false /\
  errors_Is (Errorf "amount must be positive" [] None) ErrInsufficientFunds
    = false /\
  statements (Transfer f src dst amt) db = [] /\
  state_after (Transfer f src dst amt) db = db.
Proof.
  intros Hle. unfold returned, statements, state_after, run, Transfer.
  rewrite LessThanOrEqual_Zero.
  destruct (Z.leb_spec (mant amt) 0); [|lia]. repeat split.
Qed.

(** X9. An amount that is not positive is refused before anything else,
    also when source and destination are the same account: the call returns
    an error that is neither sentinel, sends no statement and changes
    nothing. *)
Theorem Transfer_nonpositive_amount f src dst amt db :
  mant amt <= 0 ->
  returned (Transfer f src dst amt) db
    = inl (Errorf "amount must be positive" [] None) /\
  errors_Is (Errorf "amount must be positive" [] None) ErrAccountNotFound
    = false /\
  errors_Is (Errorf "amount must be positive" [] None) ErrInsufficientFunds
    = false /\
  statements (Transfer f src dst amt) db = [] /\
  state_after (Transfer f src dst amt) db = db.
Proof. apply Transfer_nonpositive_refused. Qed.

Lemma Transfer_nonpositive_amount_witness :
  returned (Transfer no_faults 100 100 Zero) opening
  = inl (Errorf "amount must be positive" [] None).
Proof.
  apply (Transfer_nonpositive_amount no_faults 100 100 Zero opening).
  reflexivity.
Defined.

(** ** Transfers: how calls compose *)

(** With no fault, an amount without digits after the tenth, enough funds
    and a destination that stays non-negative, the call returns [nil] and
    the state is the expected one. *)
Lemma Transfer_succeeds f src dst amt a db sb dbal :
  (forall op, f op = false) ->
  is_units amt a -> 0 < a -> src <> dst ->
  accounts db !! src = Some sb -> accounts db !! dst = Some dbal ->
  a <= sb -> 0 <= dbal + a ->
  returned (Transfer f src dst amt) db = inr tt /\
  state_after (Transfer f src dst amt) db =
    mkDB (<[dst := dbal + a]> (<[src := sb - a]> (accounts db)))
         (transactions db ++ [stored_row (succeeded_row src dst amt)]).
Proof.
  intros Hf Hu Ha Hne Hs Hd Hle Hdst.
  assert (Hamt : 0 < mant amt) by (apply (is_units_positive amt a Hu), Ha).
  assert (Hok : returned (Transfer f src dst amt) db = inr tt).
  { rewrite (Transfer_funds f src dst amt db sb dbal); auto.
    apply (Transfer_apply_run f src dst amt _ _ db db _ sb dbal);
      try assumption.
    - rewrite (LessThan_units sb amt a Hu). apply Z.ltb_ge. lia.
    - rewrite (numeric_10_units _ _ (Sub_units sb amt a Hu)). lia.
    - rewrite (numeric_10_units _ _ (Add_units dbal amt a Hu)). lia.
    - rewrite (numeric_10_units _ _ Hu). lia. }
  split; [exact Hok|].
  destruct (Transfer_success_units f src dst amt a db Hu Hamt Hne Hok)
    as (sb' & dbal' & Hs' & Hd' & _ & _ & _ & ->).
  congruence.
Qed.

(** X10. The transfer is not idempotent: the same call made twice, for an
    amount with no digit after the tenth, with no fault and funds for both,
    returns [nil] twice, takes the amount from the source twice, gives it to
    the destination twice and appends two rows. *)
Theorem Transfer_twice_deducts_twice f g src dst amt a db sb dbal :
  (forall op, f op = false) -> (forall op, g op = false) ->
  is_units amt a -> 0 < a -> src <> dst ->
  accounts db !! src = Some sb -> accounts db !! dst = Some dbal ->
  2 * a <= sb -> 0 <= dbal ->
  let db1 := state_after (Transfer f src dst amt) db in
  let db2 := state_after (Transfer g src dst amt) db1 in
  returned (Transfer f src dst amt) db = inr tt /\
  returned (Transfer g src dst amt) db1 = inr tt /\
  accounts db2 !! src = Some (sb - 2 * a) /\
  accounts db2 !! dst = Some (dbal + 2 * a) /\
  appended db db2 = [stored_row (succeeded_row src dst amt);
                     stored_row (succeeded_row src dst amt)].
Proof.
  intros Hf Hg Hu Ha Hne Hs Hd Hle Hdst db1 db2.
  destruct (Transfer_succeeds f src dst amt a db sb dbal) as [Hr1 Hs1];
    try assumption; try lia.
  assert (Hs1' : accounts db1 !! src = Some (sb - a)).
  { unfold db1. rewrite Hs1. simpl.
    rewrite lookup_insert_ne, lookup_insert_eq by congruence. reflexivity. }
  assert (Hd1' : accounts db1 !! dst = Some (dbal + a)).
  { unfold db1. rewrite Hs1. simpl. apply lookup_insert_eq. }
  destruct (Transfer_succeeds g src dst amt a db1 (sb - a) (dbal + a))
    as [Hr2 Hs2]; try assumption; try lia.
  split; [exact Hr1|]. split; [exact Hr2|].
  unfold db2. rewrite Hs2. unfold db1. rewrite Hs1. simpl.
  rewrite lookup_insert_ne, !lookup_insert_eq by congruence.
  repeat split.
  - f_equal. lia.
  - f_equal. lia.
  - unfold appended. simpl. rewrite <- app_assoc. apply drop_app_length.
Qed.

Lemma Transfer_twice_deducts_twice_witness :
  accounts
    (state_after (Transfer no_faults 100 200 (cents 10050))
       (state_after (Transfer no_faults 100 200 (cents 10050)) opening))
    !! 100 = Some (10000000000000 - 2 * 1005000000000).
Proof.
  apply (Transfer_twice_deducts_twice no_faults no_faults 100 200
           (cents 10050) 1005000000000 opening 10000000000000 5000000000000);
    try reflexivity; discriminate.
Defined.

(** X11. With no fault, moving an amount with no digit after the tenth that
    the source can afford, and then moving it back, returns [nil] twice and
    leaves every account with the balance it had; only the audit log has
    grown, by the two rows. *)
Theorem Transfer_there_and_back f g src dst amt a db sb dbal :
  (forall op, f op = false) -> (forall op, g op = false) ->
  is_units amt a -> 0 < a -> src <> dst ->
  accounts db !! src = Some sb -> accounts db !! dst = Some dbal ->
  a <= sb -> 0 <= dbal ->
  let db1 := state_after (Transfer f src dst amt) db in
  let db2 := state_after (Transfer g dst src amt) db1 in
  returned (Transfer f src dst amt) db = inr tt /\
  returned (Transfer g dst src amt) db1 = inr tt /\
  accounts db2 = accounts db /\
  appended db db2 = [stored_row (succeeded_row src dst amt);
                     stored_row (succeeded_row dst src amt)].
Proof.
  intros Hf Hg Hu Ha Hne Hs Hd Hle Hdst db1 db2.
  destruct (Transfer_succeeds f src dst amt a db sb dbal) as [Hr1 Hs1];
    try assumption; try lia.
  assert (Hs1' : accounts db1 !! src = Some (sb - a)).
  { unfold db1. rewrite Hs1. simpl.
    rewrite lookup_insert_ne, lookup_insert_eq by congruence. reflexivity. }
  assert (Hd1' : accounts db1 !! dst = Some (dbal + a)).
  { unfold db1. rewrite Hs1. simpl. apply lookup_insert_eq. }
  destruct (Transfer_succeeds g dst src amt a db1 (dbal + a) (sb - a))
    as [Hr2 Hs2]; try assumption; try lia; try congruence.
  split; [exact Hr1|]. split; [exact Hr2|].
  unfold db2. rewrite Hs2. unfold db1. rewrite Hs1. simpl. split.
  - apply map_eq. intros id.
    destruct (Z.eq_dec id src) as [->|Hns].
    + rewrite lookup_insert_eq, Hs. f_equal. lia.
    + rewrite lookup_insert_ne by congruence.
      destruct (Z.eq_dec id dst) as [->|Hnd].
      * rewrite lookup_insert_eq, Hd. f_equal. lia.
      * rewrite !lookup_insert_ne by congruence. reflexivity.
  - unfold appended. simpl. rewrite <- app_assoc. apply drop_app_length.
Qed.

Lemma Transfer_there_and_back_witness :
  accounts
    (state_after (Transfer no_faults 200 100 (cents 10050))
       (state_after (Transfer no_faults 100 200 (cents 10050)) opening))
  = accounts opening.
Proof.
  apply (Transfer_there_and_back no_faults no_faults 100 200 (cents 10050)
           1005000000000 opening 10000000000000 5000000000000);
    try reflexivity; discriminate.
Defined.

(** ** Sequences of requests *)

Lemma serve_log r db :
  transactions (snd (serve r db)) = transactions db \/
  exists f src dst amt,
    r = ReqTransfer f src dst amt /\ 0 < numeric_10 amt /\ src <> dst /\
    transactions (snd (serve r db)) =
      transactions db ++ [stored_row (succeeded_row src dst amt)].
Proof.
  destruct r as [f id initial|f src dst amt]; simpl.
  - left. destruct (CreateAccount_state f id initial db) as [->|(_ & _ & ->)];
      reflexivity.
  - destruct (Transfer_cases f src dst amt db)
      as [(e & _ & ->)|[(_ & _ & ->)|(Hamt & Hne & Hok)]]; auto.
    right. exists f, src, dst, amt.
    destruct (Transfer_success f src dst amt db Hamt Hne Hok)
      as (sb & dbal & _ & _ & _ & _ & _ & Hpos & ->).
    repeat split; assumption.
Qed.

Lemma serve_keeps_accounts r db id :
  is_Some (accounts db !! id) ->
  is_Some (accounts (snd (serve r db)) !! id).
Proof.
  intros Hid. destruct r as [f id' initial|f src dst amt]; simpl.
  - destruct Hid as [b Hb].
    destruct (CreateAccount_existing_rows f id' initial db) as (_ & _ & H).
    rewrite (H id b Hb). eauto.
  - apply elem_of_dom. rewrite Transfer_dom. apply elem_of_dom. exact Hid.
Qed.

(** X12. A sequence of [Transfer] calls for amounts with no digit after the
    tenth, whatever each one returns and whatever faults occur, leaves the
    set of accounts and the sum of all balances as they were. *)
Theorem transfers_keep_accounts_and_total rs db :
  Forall (fun r => match r with
                   | ReqTransfer _ _ _ amt => exists a, is_units amt a
                   | ReqCreateAccount _ _ _ => False
                   end) rs ->
  dom (accounts (serve_all rs db)) = dom (accounts db) /\
  total_balance (serve_all rs db) = total_balance db.
Proof.
  intros Hall. revert db.
  induction Hall as [|r rs Hr _ IH]; intros db; [split; reflexivity|].
  destruct r as [|f src dst amt]; [destruct Hr|]. destruct Hr as [a Hu].
  destruct (IH (snd (serve (ReqTransfer f src dst amt) db))) as [Hd Ht].
  change (serve_all (ReqTransfer f src dst amt :: rs) db)
    with (serve_all rs (snd (serve (ReqTransfer f src dst amt) db))).
  rewrite Hd, Ht. simpl.
  split; [apply Transfer_dom|apply (Transfer_total_units _ _ _ _ a), Hu].
Qed.

Lemma transfers_keep_accounts_and_total_witness :
  total_balance
    (serve_all [ReqTransfer no_faults 100 200 (cents 10050);
                ReqTransfer commit_fails 200 100 (cents 1);
                ReqTransfer no_faults 100 999 (cents 1);
                ReqTransfer no_faults 100 200 (cents 100000);
                ReqTransfer no_faults 200 200 (cents 7)] opening)
  = total_balance opening.
Proof.
  apply (transfers_keep_accounts_and_total
           [ReqTransfer no_faults 100 200 (cents 10050);
            ReqTransfer commit_fails 200 100 (cents 1);
            ReqTransfer no_faults 100 999 (cents 1);
            ReqTransfer no_faults 100 200 (cents 100000);
            ReqTransfer no_faults 200 200 (cents 7)] opening).
  repeat constructor; eexists; apply is_units_of_units.
Defined.

(** X13. Along any sequence of account creations and transfers, no account
    is ever removed and the audit log is only appended to: the rows it held
    stay, in order, and every row added has a positive amount and two
    different account identifiers. *)
Theorem accounts_and_log_only_grow rs db :
  (forall id, is_Some (accounts db !! id) ->
              is_Some (accounts (serve_all rs db) !! id)) /\
  exists added,
    transactions (serve_all rs db) = transactions db ++ added /\
    Forall (fun row => 0 < amount row /\
                       source_account_id row <> destination_account_id row)
           added /\
    (length added <= length rs)%nat.
Proof.
  revert db. induction rs as [|r rs IH]; intros db.
  - split; [auto|]. exists []. rewrite app_nil_r. repeat split; auto.
  - destruct (IH (snd (serve r db))) as [Hacc (added & Hl & Hf & Hn)].
    change (serve_all (r :: rs) db) with (serve_all rs (snd (serve r db))).
    split.
    + intros id Hid. apply Hacc, serve_keeps_accounts, Hid.
    + destruct (serve_log r db)
        as [Heq|(f & src & dst & amt & -> & Hamt & Hne & Heq)].
      * exists added. rewrite Hl, Heq. repeat split; auto. simpl. lia.
      * exists (stored_row (succeeded_row src dst amt) :: added).
        rewrite Hl, Heq, <- app_assoc. split; [reflexivity|]. split.
        -- constructor; [split; assumption|assumption].
        -- simpl. lia.
Qed.

Lemma accounts_and_log_only_grow_witness :
  is_Some
    (accounts
       (serve_all [ReqCreateAccount no_faults 100 (cents 5);
                   ReqTransfer no_faults 100 200 (cents 10050);
                   ReqCreateAccount no_faults 300 (cents 0)] opening) !! 100).
Proof.
  apply (proj1 (accounts_and_log_only_grow
                  [ReqCreateAccount no_faults 100 (cents 5);
                   ReqTransfer no_faults 100 200 (cents 10050);
                   ReqCreateAccount no_faults 300 (cents 0)] opening)).
  exists 10000000000000. reflexivity.
Defined.

(** ** Validation *)

(** X14. [TransactionRequest.Validate] accepts a request exactly when both
    identifiers are non-zero and different and the amount is positive; of
    several defects it reports the zero identifier first, then the equal
    identifiers, then the amount. *)
Theorem TransactionRequest_Validate_spec r :
  (model.TransactionRequest_Validate r = None <->
   model.SourceAccountID r <> 0 /\ model.DestinationAccountID r <> 0 /\
   model.SourceAccountID r <> model.DestinationAccountID r /\
   0 < mant (model.Amount r)) /\
  (model.TransactionRequest_Validate r = Some model.ErrInvalidAccountID <->
   model.SourceAccountID r = 0 \/ model.DestinationAccountID r = 0) /\
  (model.TransactionRequest_Validate r = Some model.ErrSameSourceDestination <->
   model.SourceAccountID r <> 0 /\
   model.SourceAccountID r = model.DestinationAccountID r) /\
  (model.TransactionRequest_Validate r = Some model.ErrInvalidAmount <->
   model.SourceAccountID r <> 0 /\ model.DestinationAccountID r <> 0 /\
   model.SourceAccountID r <> model.DestinationAccountID r /\
   mant (model.Amount r) <= 0).
Proof. apply TransactionRequest_Validate_cases. Qed.

Lemma TransactionRequest_Validate_spec_witness :
  model.TransactionRequest_Validate
    (model.mkTransactionRequest 100 200 (of_units 1))
  = None.
Proof.
  apply (proj2 (proj1 (TransactionRequest_Validate_spec
                         (model.mkTransactionRequest 100 200 (of_units 1))))).
  repeat split; discriminate.
Defined.

(** X15. [CreateAccountRequest.Validate] accepts a request exactly when the
    identifier is non-zero and the opening balance is not negative (zero is
    accepted); a zero identifier is reported before a negative balance. *)
Theorem CreateAccountRequest_Validate_spec r :
  (model.CreateAccountRequest_Validate r = None <->
   model.AccountID r <> 0 /\ 0 <= mant (model.InitialBalance r)) /\
  (model.CreateAccountRequest_Validate r = Some model.ErrInvalidAccountID <->
   model.AccountID r = 0) /\
  (model.CreateAccountRequest_Validate r
     = Some model.ErrInvalidInitialBalance <->
   model.AccountID r <> 0 /\ mant (model.InitialBalance r) < 0).
Proof. apply CreateAccountRequest_Validate_cases. Qed.

Lemma CreateAccountRequest_Validate_spec_witness :
  model.CreateAccountRequest_Validate (model.mkCreateAccountRequest 100 Zero)
  = None.
Proof.
  apply (proj2 (proj1 (CreateAccountRequest_Validate_spec
                         (model.mkCreateAccountRequest 100 Zero)))).
  split; [discriminate|reflexivity].
Defined.

(** ** The handlers on the store *)

Lemma run_conn {A} (m : M A) db :
  fst (m (connect db)) = returned m db /\
  committed (snd (m (connect db))) = state_after m db.
Proof.
  unfold returned, state_after, run. destruct (m (connect db)). split; reflexivity.
Qed.

Lemma serve_all_nonneg rs : forall db,
  balances_nonneg db -> balances_nonneg (serve_all rs db).
Proof.
  induction rs as [|r rs IH]; intros db Hdb; [assumption|].
  simpl. apply IH, serve_nonneg, Hdb.
Qed.

Lemma opening_nonneg : balances_nonneg opening.
Proof. apply serve_all_nonneg, map_Forall_empty. Qed.

(** With no fault and both balances accepted, an amount that the column
    rounds to zero fails the succeeded row on [CHECK (amount > 0)]. *)
Lemma Transfer_apply_amount_rounds_to_zero f src dst amt sb dbal db w t x y :
  (forall op, f op = false) ->
  src <> dst ->
  LessThan sb amt = false ->
  0 <= numeric_10 (Sub sb amt) -> 0 <= numeric_10 (Add dbal amt) ->
  numeric_10 amt <= 0 ->
  accounts w !! src = Some x -> accounts w !! dst = Some y ->
  fst (Transfer_apply f src dst amt sb dbal (mkConn db (Some w) t)) =
  inl (Errorf "insert transaction log: %w" [] (Some CheckViolation)).
Proof.
  intros Hf Hne Hle Hsrc Hdst Hamt Hx Hy. unfold Transfer_apply.
  rewrite Hle. cbv zeta.
  unfold bind, or_return, Exec_update_balance, Exec_insert_transaction,
    Commit, check_balance, check_amount. simpl.
  rewrite !Hf, Hx.
  destruct (Z.leb_spec 0 (numeric_10 (Sub sb amt))); simpl; [|lia].
  rewrite lookup_insert_ne, Hy by congruence.
  destruct (Z.leb_spec 0 (numeric_10 (Add dbal amt))); simpl; [|lia].
  destruct (Z.ltb_spec 0 (numeric_10 amt)); simpl; [lia|].
  reflexivity.
Qed.

(** X16. What the answer of POST /transactions says about the ledger, with
    the store on the database and under any faults: the status is one of
    200, 400, 404, 409, 500; after any answer other than 200 the committed
    state is what it was; after 200 the request was valid, both accounts
    existed, the source held no less than the amount, and the committed
    state is the old one with the two balances replaced by the difference
    and the sum as the column rounds them, and one succeeded row appended
    with the amount as the column rounds it, which is positive. *)
Theorem CreateTransaction_answer_and_state f decoded db :
  let out := @api.CreateTransaction _ (api.Store f) decoded (connect db) in
  In (api.StatusCode (fst out)) [200; 400; 404; 409; 500] /\
  (api.StatusCode (fst out) <> 200 -> committed (snd out) = db) /\
  (api.StatusCode (fst out) = 200 ->
   exists req sb dbal,
     decoded = Some req /\ model.TransactionRequest_Validate req = None /\
     accounts db !! model.SourceAccountID req = Some sb /\
     accounts db !! model.DestinationAccountID req = Some dbal /\
     LessThan (of_units sb) (model.Amount req) = false /\
     0 < numeric_10 (model.Amount req) /\
     committed (snd out) =
       mkDB (<[model.DestinationAccountID req :=
                 numeric_10 (Add (of_units dbal) (model.Amount req))]>
               (<[model.SourceAccountID req :=
                    numeric_10 (Sub (of_units sb) (model.Amount req))]>
                  (accounts db)))
            (transactions db ++
               [stored_row
                  (succeeded_row (model.SourceAccountID req)
                     (model.DestinationAccountID req) (model.Amount req))])).
Proof.
  unfold api.CreateTransaction.
  destruct decoded as [req|]; simpl;
    [|split; [auto|split; [reflexivity|discriminate]]].
  destruct (model.TransactionRequest_Validate req) as [verr|] eqn:Hv; simpl;
    [split; [auto|split; [reflexivity|discriminate]]|].
  destruct (proj1 (proj1 (TransactionRequest_Validate_cases req)) Hv)
    as (_ & _ & Hne & Hamt).
  set (src := model.SourceAccountID req) in *.
  set (dst := model.DestinationAccountID req) in *.
  set (amt := model.Amount req) in *.
  destruct (run_conn (Transfer f src dst amt) db) as [Hr Hc].
  destruct (Transfer f src dst amt (connect db)) as [r c]. simpl in Hr, Hc.
  destruct r as [e|[]].
  - assert (Hsame : committed c = db)
      by (rewrite Hc; apply (Transfer_error_state f src dst amt db e);
          symmetry; exact Hr).
    destruct e as [| |fmt args w]; simpl;
      (split; [auto 10|split; [intros _; exact Hsame|discriminate]]).
  - simpl. split; [auto|]. split; [intros H; contradiction H; reflexivity|].
    intros _.
    symmetry in Hr.
    destruct (Transfer_success f src dst amt db Hamt Hne Hr)
      as (sb & dbal & Hs & Hd & Hle & _ & _ & Hpos & Hst).
    exists req, sb, dbal. rewrite Hc, Hst. repeat split; assumption.
Qed.

Lemma CreateTransaction_answer_and_state_witness :
  committed
    (snd (@api.CreateTransaction _ (api.Store no_faults)
            (Some (model.mkTransactionRequest 100 200 (cents 100001)))
            (connect opening)))
  = opening.
Proof.
  apply (CreateTransaction_answer_and_state no_faults
           (Some (model.mkTransactionRequest 100 200 (cents 100001))) opening).
  vm_compute. discriminate.
Defined.

(** X17. The answer of POST /transactions when no statement faults and no
    balance is negative: 400 for an invalid or undecodable body, 404 when
    the source or the destination does not exist, 409 when the source holds
    less than the amount, and otherwise 200 when the amount rounded to the
    column's ten fractional digits is positive and 500 when it rounds to
    zero (the succeeded row then fails [CHECK (amount > 0)]). *)
Theorem CreateTransaction_answer_without_faults f decoded db :
  (forall op, f op = false) -> balances_nonneg db ->
  api.StatusCode
    (fst (@api.CreateTransaction _ (api.Store f) decoded (connect db))) =
  match decoded with
  | None => 400
  | Some req =>
      match model.TransactionRequest_Validate req with
      | Some _ => 400
      | None =>
          match accounts db !! model.SourceAccountID req,
                accounts db !! model.DestinationAccountID req with
          | Some sb, Some _ =>
              if LessThan (of_units sb) (model.Amount req) then 409
              else if 0 <? numeric_10 (model.Amount req) then 200
              else 500
          | _, _ => 404
          end
      end
  end.
Proof.
  intros Hf Hnn. unfold api.CreateTransaction.
  destruct decoded as [req|]; [|reflexivity].
  destruct (model.TransactionRequest_Validate req) as [verr|] eqn:Hv;
    [reflexivity|].
  destruct (proj1 (proj1 (TransactionRequest_Validate_cases req)) Hv)
    as (_ & _ & Hne & Hamt).
  simpl api.store_Transfer.
  set (src := model.SourceAccountID req) in *.
  set (dst := model.DestinationAccountID req) in *.
  set (amt := model.Amount req) in *.
  destruct (run_conn (Transfer f src dst amt) db) as [Hr _].
  destruct (Transfer f src dst amt (connect db)) as [r c]. simpl in Hr.
  assert (Hnf : accounts db !! src = None \/ accounts db !! dst = None ->
                r = inl ErrAccountNotFound).
  { intros Hmiss. rewrite Hr.
    apply (Transfer_not_found_when_reads_succeed f src dst amt db); auto. }
  destruct (accounts db !! src) as [sb|] eqn:Hs;
    [|rewrite Hnf by auto; reflexivity].
  destruct (accounts db !! dst) as [dbal|] eqn:Hd;
    [|rewrite Hnf by auto; reflexivity].
  rewrite Hr, (Transfer_funds f src dst amt db sb dbal) by auto.
  destruct (LessThan (of_units sb) amt) eqn:Hlt.
  - rewrite Transfer_apply_insufficient by assumption. reflexivity.
  - assert (Hdst : 0 <= dbal) by (exact (Hnn dst dbal Hd)).
    assert (Hsub : 0 <= numeric_10 (Sub (of_units sb) amt))
      by (apply numeric_10_nonneg, Sub_nonneg, Hlt).
    assert (Hadd : 0 <= numeric_10 (Add (of_units dbal) amt))
      by (apply numeric_10_nonneg, Add_nonneg; lia).
    destruct (Z.ltb_spec 0 (numeric_10 amt)) as [Hpos|Hzero].
    + rewrite (Transfer_apply_run f src dst amt _ _ db db _ sb dbal);
        auto.
    + rewrite (Transfer_apply_amount_rounds_to_zero f src dst amt _ _ db db _
                 sb dbal); auto.
Qed.

Lemma CreateTransaction_answer_without_faults_witness :
  api.StatusCode
    (fst (@api.CreateTransaction _ (api.Store no_faults)
            (Some (model.mkTransactionRequest 100 200 (mkDecimal 4 1)))
            (connect opening)))
  = 500.
Proof.
  rewrite (CreateTransaction_answer_without_faults no_faults
             (Some (model.mkTransactionRequest 100 200 (mkDecimal 4 1)))
             opening).
  - reflexivity.
  - reflexivity.
  - exact opening_nonneg.
Defined.

(** X18. The answer of POST /accounts, with the store on the database: the
    status is 201, 400 or 500; after any answer other than 201 the committed
    state is what it was; after 201 the request was valid, the identifier
    was free, and the committed state is the old one with that account
    added, holding the opening balance as the column rounds it, and the
    audit log untouched.  When the statement does not fault the answer is
    400 for an invalid or undecodable body, 500 for an identifier that
    exists, and 201 otherwise. *)
Theorem CreateAccount_answer_and_state f decoded db :
  let out := @api.CreateAccount _ (api.Store f) decoded (connect db) in
  In (api.StatusCode (fst out)) [201; 400; 500] /\
  (api.StatusCode (fst out) <> 201 -> committed (snd out) = db) /\
  (api.StatusCode (fst out) = 201 ->
   exists req,
     decoded = Some req /\
     model.AccountID req <> 0 /\ 0 <= mant (model.InitialBalance req) /\
     accounts db !! model.AccountID req = None /\
     committed (snd out) =
       mkDB (<[model.AccountID req :=
                 numeric_10 (model.InitialBalance req)]> (accounts db))
            (transactions db)) /\
  (f OpInsertAccount = false ->
   api.StatusCode (fst out) =
   match decoded with
   | None => 400
   | Some req =>
       match model.CreateAccountRequest_Validate req with
       | Some _ => 400
       | None =>
           match accounts db !! model.AccountID req with
           | Some _ => 500
           | None => 201
           end
       end
   end).
Proof.
  unfold api.CreateAccount.
  destruct decoded as [req|]; simpl;
    [|repeat split; auto; discriminate].
  destruct (model.CreateAccountRequest_Validate req) as [verr|] eqn:Hv; simpl;
    [repeat split; auto; discriminate|].
  destruct (proj1 (proj1 (CreateAccountRequest_Validate_cases req)) Hv)
    as (Hnz & Hpos).
  set (id := model.AccountID req) in *.
  set (initial := model.InitialBalance req) in *.
  destruct (run_conn (CreateAccount f id initial) db) as [Hr Hc].
  unfold returned, state_after in Hr, Hc. rewrite CreateAccount_run in Hr, Hc.
  change (api.store_CreateAccount id initial (connect db))
    with (CreateAccount f id initial (connect db)).
  destruct (CreateAccount f id initial (connect db)) as [r c].
  pose proof (numeric_10_nonneg initial Hpos) as Hround.
  destruct (Z.ltb_spec (numeric_10 initial) 0); [lia|].
  destruct (f OpInsertAccount);
    [|destruct (accounts db !! id) eqn:Hid];
    simpl in Hr, Hc; subst r; simpl; rewrite Hc.
  - repeat split; auto; discriminate.
  - repeat split; auto; discriminate.
  - split; [simpl; auto|].
    split; [intros Hcode; contradiction Hcode; reflexivity|].
    split; [|reflexivity].
    intros _. exists req. repeat split; assumption.
Qed.

Lemma CreateAccount_answer_and_state_witness :
  committed
    (snd (@api.CreateAccount _ (api.Store no_faults)
            (Some (model.mkCreateAccountRequest 100 (cents 1)))
            (connect opening)))
  = opening.
Proof.
  apply (CreateAccount_answer_and_state no_faults
           (Some (model.mkCreateAccountRequest 100 (cents 1))) opening).
  vm_compute. discriminate.
Defined.

(** X19. The answer of GET /accounts/{id}, with the store on the database:
    the committed state is never changed; an identifier that does not parse
    is answered 400 without any statement; when the SELECT does not fault an
    existing account is answered 200 with its identifier and balance and a
    missing one 404; and under any faults a body that carries a balance
    carries the one the table holds for the identifier asked. *)
Theorem GetAccount_answer f parsed db :
  let out := @api.GetAccount _ (api.Store f) parsed (connect db) in
  committed (snd out) = db /\
  (parsed = None ->
   fst out = api.http_Error "invalid account id" 400 /\ trace (snd out) = []) /\
  (forall id, parsed = Some id -> f (OpSelect id) = false ->
     fst out =
       match accounts db !! id with
       | Some b =>
           api.mkResponse 200
             (api.JSON (model.mkAccountResponse id (of_units b)))
       | None => api.http_Error "account not found" 404
       end) /\
  (forall v, api.body (fst out) = api.JSON v ->
     parsed = Some (model.resp_AccountID v) /\
     exists b, accounts db !! model.resp_AccountID v = Some b /\
               model.Balance v = of_units b).
Proof.
  unfold api.GetAccount.
  destruct parsed as [id|]; simpl;
    [|split; [reflexivity|]; split; [split; reflexivity|];
      split; [discriminate|discriminate]].
  assert (Hrun := GetAccount_run f id db). unfold run in Hrun.
  change (api.store_GetAccount id (connect db))
    with (GetAccount f id (connect db)).
  destruct (GetAccount f id (connect db)) as [r c].
  destruct (f (OpSelect id)) eqn:Hf;
    [|destruct (accounts db !! id) as [b|] eqn:Hid];
    injection Hrun as Hr Hc _; subst r; simpl; rewrite Hc;
    (split; [reflexivity|]); (split; [discriminate|]); split.
  - intros id' [= <-] Hf'. congruence.
  - discriminate.
  - intros id' [= <-] _. rewrite Hid. reflexivity.
  - intros v [= <-]. simpl. split; [reflexivity|]. exists b. split; auto.
  - intros id' [= <-] _. rewrite Hid. reflexivity.
  - discriminate.
Qed.

Lemma GetAccount_answer_witness :
  fst (@api.GetAccount _ (api.Store no_faults) (Some 200) (connect opening))
  = api.mkResponse 200
      (api.JSON (model.mkAccountResponse 200 (cents 50000))).
Proof.
  destruct (GetAccount_answer no_faults (Some 200) opening)
    as (_ & _ & H & _).
  apply (H 200); reflexivity.
Defined.

(** ** Configuration *)

(** X20. [loadConfig] fails exactly when POSTGRES_DSN is empty or not set;
    otherwise the configuration carries that DSN and a port that is never
    empty: the value of PORT, and 8080 when PORT is empty or not set. *)
Theorem loadConfig_dsn_and_port
    (Getenv : string -> string) (Atoi : string -> option Z) :
  (Getenv "POSTGRES_DSN"%string = EmptyString <->
   config.loadConfig Getenv Atoi = inl "POSTGRES_DSN is required"%string) /\
  (Getenv "POSTGRES_DSN"%string <> EmptyString ->
   exists cfg,
     config.loadConfig Getenv Atoi = inr cfg /\
     config.PostgresDSN cfg = Getenv "POSTGRES_DSN"%string /\
     config.Port cfg <> EmptyString /\
     (Getenv "PORT"%string = EmptyString -> config.Port cfg = "8080"%string) /\
     (Getenv "PORT"%string <> EmptyString -> config.Port cfg = Getenv "PORT"%string)).
Proof.
  unfold config.loadConfig.
  destruct (String.eqb_spec (Getenv "POSTGRES_DSN"%string) EmptyString) as [He|Hne].
  - split; [split; auto|]. intros Hc. contradiction.
  - split; [split; [intros; contradiction|discriminate]|].
    intros _. eexists. split; [reflexivity|]. simpl.
    destruct (String.eqb_spec (Getenv "PORT"%string) EmptyString) as [Hp|Hp];
      repeat split; try discriminate; try assumption; try reflexivity;
      intros; try contradiction; reflexivity.
Qed.

Lemma loadConfig_dsn_and_port_witness :
  config.loadConfig (fun _ => EmptyString) (fun _ => None)
  = inl "POSTGRES_DSN is required"%string.
Proof.
  apply (proj1 (proj1 (loadConfig_dsn_and_port (fun _ => EmptyString)
                         (fun _ => None)))).
  reflexivity.
Defined.

Lemma wrap64_small z :
  0 <= z < 2 ^ 63 -> config.wrap64 z = z.
Proof.
  intros Hz. unfold config.wrap64.
  change (2 ^ 63) with 9223372036854775808 in *.
  change (2 ^ 64) with 18446744073709551616.
  rewrite Z.mod_small by lia. lia.
Qed.

Lemma wrap64_overflow z :
  2 ^ 63 <= z < 2 ^ 64 -> config.wrap64 z = z - 2 ^ 64.
Proof.
  intros Hz. unfold config.wrap64.
  change (2 ^ 63) with 9223372036854775808 in *.
  change (2 ^ 64) with 18446744073709551616 in *.
  replace (z + 9223372036854775808)
    with (z - 9223372036854775808 + 1 * 18446744073709551616) by lia.
  rewrite Z_mod_plus_full, Z.mod_small by lia. lia.
Qed.

(** X21. The request timeout of a loaded configuration is five seconds
    unless REQ_TIMEOUT_SEC is set and parses to a positive number [v]; then
    it is [v] seconds as long as [v] is at most 9223372036, and beyond that
    the multiplication by [time.Second] overflows: up to 18446744073 the
    timeout is negative. *)
Theorem loadConfig_timeout
    (Getenv : string -> string) (Atoi : string -> option Z) cfg :
  config.loadConfig Getenv Atoi = inr cfg ->
  (config.ReqTimeout cfg = 5 * config.Second \/
   exists v, Getenv "REQ_TIMEOUT_SEC"%string <> EmptyString /\
             Atoi (Getenv "REQ_TIMEOUT_SEC"%string) = Some v /\ 0 < v /\
             config.ReqTimeout cfg = config.wrap64 (v * config.Second)) /\
  ((Getenv "REQ_TIMEOUT_SEC"%string = EmptyString \/
    Atoi (Getenv "REQ_TIMEOUT_SEC"%string) = None \/
    exists v, Atoi (Getenv "REQ_TIMEOUT_SEC"%string) = Some v /\ v <= 0) ->
   config.ReqTimeout cfg = 5 * config.Second) /\
  (forall v,
     Getenv "REQ_TIMEOUT_SEC"%string <> EmptyString ->
     Atoi (Getenv "REQ_TIMEOUT_SEC"%string) = Some v ->
     (0 < v <= 9223372036 ->
      config.ReqTimeout cfg = v * config.Second /\ 0 < config.ReqTimeout cfg) /\
     (9223372036 < v <= 18446744073 -> config.ReqTimeout cfg < 0)).
Proof.
  unfold config.loadConfig.
  destruct (String.eqb (Getenv "POSTGRES_DSN"%string) EmptyString); [discriminate|].
  intros [= <-]. simpl.
  destruct (String.eqb_spec (Getenv "REQ_TIMEOUT_SEC"%string) EmptyString)
    as [He|Hne]; simpl.
  - split; [left; reflexivity|]. split; [reflexivity|].
    intros v Hc. contradiction.
  - destruct (Atoi (Getenv "REQ_TIMEOUT_SEC"%string)) as [v|] eqn:Ha.
    + destruct (Z.ltb_spec 0 v) as [Hpos|Hle].
      * split; [right; exists v; auto|]. split.
        -- intros [Hc|[Hc|(v' & [= <-] & Hc)]];
             [contradiction|discriminate|lia].
        -- intros v' _ [= <-]. split.
           ++ intros Hv. rewrite wrap64_small.
              ** unfold config.Second. lia.
              ** unfold config.Second.
                 change (2 ^ 63) with 9223372036854775808. lia.
           ++ intros Hv. rewrite wrap64_overflow.
              ** unfold config.Second.
                 change (2 ^ 64) with 18446744073709551616. lia.
              ** unfold config.Second.
                 change (2 ^ 63) with 9223372036854775808.
                 change (2 ^ 64) with 18446744073709551616. lia.
      * split; [left; reflexivity|]. split; [reflexivity|].
        intros v' _ [= <-]. split; intros Hv; lia.
    + split; [left; reflexivity|]. split; [reflexivity|].
      intros v' _ Hc. discriminate.
Qed.

Lemma loadConfig_timeout_witness :
  config.ReqTimeout
    (config.mkConfig "dsn" "8080" (config.wrap64 (30 * config.Second)))
  = 30 * config.Second /\
  0 < config.ReqTimeout
        (config.mkConfig "dsn" "8080" (config.wrap64 (30 * config.Second))).
Proof.
  destruct (loadConfig_timeout
              (fun k => if String.eqb k "PORT" then EmptyString
                        else if String.eqb k "POSTGRES_DSN" then "dsn"%string
                        else "30"%string)
              (fun _ => Some 30)
              (config.mkConfig "dsn" "8080" (config.wrap64 (30 * config.Second)))
              eq_refl) as (_ & _ & H).
  apply (H 30); [discriminate | reflexivity | lia].
Defined.
(** ** What a transfer never does *)

Lemma update_trace_eq f bal id c :
  trace (snd (Exec_update_balance f bal id c)) = trace c ++ [EvUpdate bal id].
Proof.
  unfold Exec_update_balance, emit. simpl.
  destruct (staged c); [|reflexivity].
  destruct (f (OpUpdate id)); [reflexivity|].
  destruct (accounts d !! id); [|reflexivity].
  destruct (check_balance _); reflexivity.
Qed.

Lemma Commit_trace_eq f c :
  trace (snd (Commit f c)) = trace c ++ [EvCommit].
Proof.
  unfold Commit, emit. simpl.
  destruct (staged c); [|reflexivity].
  destruct (f OpCommit); reflexivity.
Qed.

Lemma Rollback_trace_cases c :
  trace (snd (Rollback c)) = trace c ++ [] \/
  trace (snd (Rollback c)) = trace c ++ [EvRollback].
Proof.
  unfold Rollback. destruct (staged c); simpl; [right; reflexivity|].
  left. symmetry. apply app_nil_r.
Qed.

(** With sufficient funds the statements sent are a beginning of: update the
    source, update the destination, insert the succeeded row, commit. *)
Lemma Transfer_apply_trace_sufficient f src dst amt sb dbal c :
  LessThan sb amt = false ->
  exists t,
    trace (snd (Transfer_apply f src dst amt sb dbal c)) = trace c ++ t /\
    forall e, In e t ->
      In e [EvUpdate (Sub sb amt) src; EvUpdate (Add dbal amt) dst;
            EvInsertTransaction (succeeded_row src dst amt); EvCommit].
Proof.
  intros Hle. unfold Transfer_apply. rewrite Hle. cbv zeta.
  unfold bind, or_return.
  pose proof (update_trace_eq f (Sub sb amt) src c) as H1.
  destruct (Exec_update_balance f (Sub sb amt) src c) as [[e1|[]] c1];
    simpl in H1 |- *.
  { exists [EvUpdate (Sub sb amt) src]. split; [exact H1|]. simpl. tauto. }
  pose proof (update_trace_eq f (Add dbal amt) dst c1) as H2.
  destruct (Exec_update_balance f (Add dbal amt) dst c1) as [[e2|[]] c2];
    simpl in H2 |- *.
  { exists [EvUpdate (Sub sb amt) src; EvUpdate (Add dbal amt) dst].
    split; [rewrite H2, H1, <- app_assoc; reflexivity|]. simpl. tauto. }
  pose proof (insert_trace_eq f (succeeded_row src dst amt) c2) as H3.
  destruct (Exec_insert_transaction f (succeeded_row src dst amt) c2)
    as [[e3|[]] c3]; simpl in H3 |- *.
  { exists [EvUpdate (Sub sb amt) src; EvUpdate (Add dbal amt) dst;
            EvInsertTransaction (succeeded_row src dst amt)].
    split; [rewrite H3, H2, H1, <- !app_assoc; reflexivity|]. simpl. tauto. }
  pose proof (Commit_trace_eq f c3) as H4.
  destruct (Commit f c3) as [[e4|[]] c4]; simpl in H4 |- *;
    (exists [EvUpdate (Sub sb amt) src; EvUpdate (Add dbal amt) dst;
             EvInsertTransaction (succeeded_row src dst amt); EvCommit];
     split; [rewrite H4, H3, H2, H1, <- !app_assoc; reflexivity|auto]).
Qed.

(** X22. [Transfer] sends an UPDATE only inside a transaction in which both
    rows have been locked by granted reads and the source has been found to
    hold the amount; the row updated is the source, set to its balance less
    the amount, or the destination, set to its balance plus the amount.  No
    other row is ever written. *)
Theorem Transfer_updates_only_under_locks f src dst amt db bal id :
  In (EvUpdate bal id) (statements (Transfer f src dst amt) db) ->
  0 < mant amt /\ src <> dst /\
  exists sb dbal t,
    accounts db !! src = Some sb /\ accounts db !! dst = Some dbal /\
    f (OpSelectForUpdate src) = false /\ f (OpSelectForUpdate dst) = false /\
    LessThan (of_units sb) amt = false /\
    (id = src /\ bal = Sub (of_units sb) amt \/
     id = dst /\ bal = Add (of_units dbal) amt) /\
    statements (Transfer f src dst amt) db =
      [EvBegin; EvSelectForUpdate (Z.min src dst);
       EvSelectForUpdate (Z.max src dst)] ++ t.
Proof.
  intros Hin.
  destruct (Z.leb_spec (mant amt) 0) as [Hle|Hamt].
  { exfalso. revert Hin.
    destruct (Transfer_nonpositive_refused f src dst amt db Hle)
      as (_ & _ & _ & -> & _). simpl. tauto. }
  destruct (Z.eq_dec src dst) as [->|Hne].
  { exfalso. revert Hin. unfold statements, run, Transfer.
    rewrite LessThanOrEqual_Zero.
    destruct (Z.leb_spec (mant amt) 0); [lia|]. rewrite Z.eqb_refl. simpl.
    tauto. }
  split; [assumption|]. split; [assumption|].
  destruct (f OpBegin) eqn:Hb.
  { exfalso. revert Hin. unfold statements, run.
    rewrite (Transfer_begin f src dst amt db Hamt Hne), Hb. simpl.
    intros [H|[]]. discriminate. }
  destruct (Transfer_run_tx f src dst amt db Hamt Hne Hb) as (_ & _ & Ht).
  rewrite Ht in Hin |- *. clear Ht.
  destruct (Transfer_tx_outcome f src dst amt db db [EvBegin] Hne)
    as [(_ & _ & Htr & Hst)|[(_ & _ & _ & Htr & Hst)|
        [(_ & _ & _ & _ & Htr & Hst)|
        [(_ & _ & _ & _ & _ & Htr & Hst)|
         (sb & dbal & Hfs & Hfd & Hsb & Hdb & HR)]]]];
    try (exfalso; rewrite (Rollback_trace_open _ Hst), Htr in Hin;
         simpl in Hin;
         repeat (destruct Hin as [Hin|Hin]; [discriminate|]); exact Hin).
  rewrite HR in Hin |- *. clear HR.
  destruct (LessThan (of_units sb) amt) eqn:Hlt.
  { exfalso. revert Hin.
    rewrite Transfer_apply_insufficient by assumption. simpl.
    rewrite Rollback_trace_open by (apply insert_staged; simpl; eauto).
    rewrite insert_trace_eq. simpl.
    intros Hin. repeat (destruct Hin as [Hin|Hin]; [discriminate|]).
    exact Hin. }
  destruct (Transfer_apply_trace_sufficient f src dst amt (of_units sb)
              (of_units dbal)
              (mkConn db (Some db)
                 ([EvBegin] ++ [EvSelectForUpdate (Z.min src dst);
                                EvSelectForUpdate (Z.max src dst)])) Hlt)
    as (t & Htr & Hsub).
  assert (Hrb : exists r,
             trace (snd (Rollback
                           (snd (Transfer_apply f src dst amt (of_units sb)
                                   (of_units dbal)
                                   (mkConn db (Some db)
                                      ([EvBegin] ++
                                       [EvSelectForUpdate (Z.min src dst);
                                        EvSelectForUpdate (Z.max src dst)]))))))
             = ([EvBegin] ++ [EvSelectForUpdate (Z.min src dst);
                              EvSelectForUpdate (Z.max src dst)]) ++ t ++ r /\
             (r = [] \/ r = [EvRollback])).
  { destruct (Rollback_trace_cases
                (snd (Transfer_apply f src dst amt (of_units sb)
                        (of_units dbal)
                        (mkConn db (Some db)
                           ([EvBegin] ++
                            [EvSelectForUpdate (Z.min src dst);
                             EvSelectForUpdate (Z.max src dst)])))))
      as [Hr|Hr]; rewrite Hr, Htr, <- app_assoc; simpl; eauto. }
  destruct Hrb as (r & Hrb & Hr).
  rewrite Hrb in Hin |- *. simpl in Hin |- *.
  repeat (destruct Hin as [Hin|Hin]; [discriminate|]).
  apply in_app_or in Hin.
  destruct Hin as [Hin|Hin];
    [|exfalso; destruct Hr as [-> | ->];
      [destruct Hin|destruct Hin as [Hin|[]]; discriminate]].
  apply Hsub in Hin. simpl in Hin.
  assert (Hrow : id = src /\ bal = Sub (of_units sb) amt \/
                 id = dst /\ bal = Add (of_units dbal) amt).
  { destruct Hin as [Hin|[Hin|[Hin|[Hin|[]]]]]; try discriminate;
      injection Hin as <- <-; auto. }
  exists sb, dbal, (t ++ r).
  repeat split; assumption || reflexivity.
Qed.

Lemma Transfer_updates_only_under_locks_witness :
  0 < mant (cents 10050) /\ 100 <> 200 /\
  exists sb dbal t,
    accounts opening !! 100 = Some sb /\ accounts opening !! 200 = Some dbal /\
    no_faults (OpSelectForUpdate 100) = false /\
    no_faults (OpSelectForUpdate 200) = false /\
    LessThan (of_units sb) (cents 10050) = false /\
    (200 = 100 /\ cents 60050 = Sub (of_units sb) (cents 10050) \/
     200 = 200 /\ cents 60050 = Add (of_units dbal) (cents 10050)) /\
    statements (Transfer no_faults 100 200 (cents 10050)) opening =
      [EvBegin; EvSelectForUpdate (Z.min 100 200);
       EvSelectForUpdate (Z.max 100 200)] ++ t.
Proof.
  apply (Transfer_updates_only_under_locks no_faults 100 200 (cents 10050)
           opening (cents 60050) 200).
  vm_compute. auto 10.
Defined.

Lemma Rollback_staged c : staged (snd (Rollback c)) = None.
Proof.
  unfold Rollback. destruct (staged c) eqn:Hs; simpl; auto.
Qed.

(** X23. [Transfer] never leaves a transaction open: called on a
    connection without an open transaction it returns, whatever happens,
    on a connection without an open transaction. *)
Theorem Transfer_leaves_no_transaction_open f src dst amt c :
  staged c = None ->
  staged (snd (Transfer f src dst amt c)) = None.
Proof.
  intros Hc. unfold Transfer.
  destruct (LessThanOrEqual amt Zero); [exact Hc|].
  destruct (src =? dst); [exact Hc|].
  unfold bind, or_return, Begin, emit. simpl.
  destruct (f OpBegin); simpl; [exact Hc|].
  unfold defer_rollback.
  destruct (Transfer_tx f src dst amt _) as [r c']. simpl.
  apply Rollback_staged.
Qed.

Lemma Transfer_leaves_no_transaction_open_witness :
  staged (snd (Transfer commit_fails 100 200 (cents 10050) (connect opening)))
  = None.
Proof.
  apply (Transfer_leaves_no_transaction_open commit_fails 100 200
           (cents 10050) (connect opening)).
  reflexivity.
Defined.

(** X24. The handler of POST /accounts calls the store at most once, and
    only with a non-zero identifier and a non-negative opening balance, the
    ones of the request; a body that does not decode or does not validate
    is answered 400 without any call. *)
Theorem CreateAccount_calls_store_validated decoded log :
  let out := @api.CreateAccount _ api.Recorder decoded log in
  (snd out = log /\ api.StatusCode (fst out) = 400) \/
  (exists req,
     decoded = Some req /\
     model.AccountID req <> 0 /\ 0 <= mant (model.InitialBalance req) /\
     snd out =
       log ++ [api.CallCreateAccount (model.AccountID req)
                 (model.InitialBalance req)]).
Proof.
  unfold api.CreateAccount.
  destruct decoded as [req|]; simpl; [|left; split; reflexivity].
  destruct (model.CreateAccountRequest_Validate req) eqn:Hv; simpl;
    [left; split; reflexivity|].
  right. exists req.
  destruct (proj1 (proj1 (CreateAccountRequest_Validate_cases req)) Hv).
  repeat split; assumption.
Qed.
